(** * koa_boilerplate: the credential / session lifecycle

    A shallow embedding of [src/services/authService.js] (class
    [AuthService]: [generateToken], [verifyToken], [register], [login],
    [getUserById]) together with the collaborators it calls:

    - the [jsonwebtoken] package ([jwt.sign], [jwt.verify]);
    - [bcrypt] (hashing and comparison of passwords);
    - the Sequelize model [User] ([findOne], [findByPk], [create],
      [update], [comparePassword], [toJSON]) over the users table.

    JavaScript objects used as dictionaries (token payloads, JSON
    projections) are finite maps from field names to JSON values; the users
    table is the list of its rows in insertion order; asynchronous service
    methods are computations in a state-and-exception monad over the table;
    the wall clock ([Date.now()], in milliseconds) is an explicit input. *)

From Stdlib Require Import ZArith List Ascii String.
From stdpp Require Import base option gmap strings list fin_maps infinite.

Local Open Scope Z_scope.
Local Open Scope string_scope.

(** ** JSON values and JavaScript errors *)

Inductive JValue : Type :=
| JNull
| JBool (b : bool)
| JNum (n : Z)
| JStr (s : string)
| JDate (ms : Z).

#[global] Instance JValue_eq_dec : EqDecision JValue.
Proof. solve_decision. Defined.

(** A plain JavaScript object: field name to value. *)
Abbreviation JObject := (gmap string JValue).

(** A thrown JavaScript error: the constructor's [name] and the [message]. *)
Record Error : Type := mkError { name : string; message : string }.

#[global] Instance Error_eq_dec : EqDecision Error.
Proof. solve_decision. Defined.

(** [new Error(msg)] *)
Definition new_Error (msg : string) : Error :=
  {| name := "Error"; message := msg |}.

(** The service throws plain [Error]s that differ by message only; the
    names below are the ones the specification gives to them. *)
Definition DuplicateAccountError : Error := new_Error "User with this email already exists".
Definition InvalidCredentialsError : Error := new_Error "Invalid credentials".
Definition AccountDisabledError : Error := new_Error "Account is disabled".
Definition UserNotFoundError : Error := new_Error "User not found".
Definition InvalidOrExpiredTokenError : Error := new_Error "Invalid or expired token".

(** JavaScript optional string to JSON ([undefined]/[null] become [null]). *)
Definition json_opt_str (o : option string) : JValue :=
  match o with Some s => JStr s | None => JNull end.

Definition json_opt_date (o : option Z) : JValue :=
  match o with Some t => JDate t | None => JNull end.

(** ** External primitives and configuration *)

(** The JOSE header of a compact token. *)
Record Header : Type := mkHeader { alg : string; typ : string }.

#[global] Instance Header_eq_dec : EqDecision Header.
Proof. solve_decision. Defined.

(** The cryptographic primitives are an interface: the development holds
    for every keyed signature function and every password hash.
    - [jwa_sign alg key (header, payload)] is the signature of the signing
      input under [key] (HMAC-SHA for the HS algorithms);
    - [bcrypt_hash salt password] is [bcrypt.hash] with the salt it drew;
    - [bcrypt_compare candidate hash] is [bcrypt.compare]. *)
Class Crypto : Type := {
  jwa_sign : string -> string -> Header * JObject -> string;
  bcrypt_hash : string -> string -> string;
  bcrypt_compare : string -> string -> bool
}.

(** The module constants of [authService.js]:
    [JWT_SECRET = process.env.JWT_SECRET || 'your-super-secret-jwt-key'] and
    [JWT_EXPIRES_IN = process.env.JWT_EXPIRES_IN || '24h'], the latter as
    the number of milliseconds the time-span string denotes. *)
Class Config : Type := {
  JWT_SECRET : string;
  JWT_EXPIRES_IN : Z
}.

Definition default_config : Config :=
  {| JWT_SECRET := "your-super-secret-jwt-key"; JWT_EXPIRES_IN := 86400000 |}.

(** A concrete instance of the primitives, used to run the model. *)
Definition test_crypto : Crypto :=
  {| jwa_sign := fun a key _ => a +:+ ":" +:+ key;
     bcrypt_hash := fun _ pw => "hash:" +:+ pw;
     bcrypt_compare := fun pw h => String.eqb ("hash:" +:+ pw) h |}.

(** ** The [jsonwebtoken] package *)

Module jwt.

(** A token string, kept as what [jws.decode] makes of it: either a string
    that does not decode (wrong number of segments, or segments that are
    not base64url JSON), or the three decoded segments. The base64url and
    JSON layers themselves are not modelled. *)
Inductive Token : Type :=
| Raw (s : string)
| Jws (header : Header) (payload : JObject) (signature : string).

(** [jwtString.split('.').length] *)
Fixpoint parts (s : string) : nat :=
  match s with
  | EmptyString => 1
  | String c rest => if Ascii.eqb c "."%char then S (parts rest) else parts rest
  end.

Definition JsonWebTokenError (msg : string) : Error :=
  {| name := "JsonWebTokenError"; message := msg |}.
Definition TokenExpiredError : Error :=
  {| name := "TokenExpiredError"; message := "jwt expired" |}.
Definition NotBeforeError : Error :=
  {| name := "NotBeforeError"; message := "jwt not active" |}.

(** Algorithms accepted by [jwt.verify] for a shared secret. *)
Definition hs_algorithms : list string := ["HS256"; "HS384"; "HS512"].

Section WithCrypto.
Context `{Crypto}.

(** [jwt.sign(payload, secret, { expiresIn })] at wall-clock [clock] (ms),
    for an object payload without [exp] (the service signs no other):
    the issued-at instant is [payload.iat || Math.floor(Date.now() / 1000)];
    [exp] is that instant plus the lifetime, rounded down to whole seconds;
    the token is signed with HS256. *)
Definition sign (payload : JObject) (secret : string) (expiresIn : Z) (clock : Z) : Token :=
  let timestamp :=
    match payload !! "iat" with
    | Some (JNum t) => if Z.eqb t 0 then clock / 1000 else t
    | _ => clock / 1000
    end in
  let header := {| alg := "HS256"; typ := "JWT" |} in
  let claims := <["exp" := JNum (timestamp + expiresIn / 1000)]> (<["iat" := JNum timestamp]> payload) in
  Jws header claims (jwa_sign "HS256" secret (header, claims)).

(** The time checks of [jwt.verify] on a decoded payload, at
    [clockTimestamp] (seconds): [nbf] first, then [exp]. *)
Definition check_nbf (payload : JObject) (clockTimestamp : Z) : option Error :=
  match payload !! "nbf" with
  | None => None
  | Some (JNum nbf) => if nbf >? clockTimestamp then Some NotBeforeError else None
  | Some _ => Some (JsonWebTokenError "invalid nbf value")
  end.

Definition check_exp (payload : JObject) (clockTimestamp : Z) : option Error :=
  match payload !! "exp" with
  | None => None
  | Some (JNum exp) => if clockTimestamp >=? exp then Some TokenExpiredError else None
  | Some _ => Some (JsonWebTokenError "invalid exp value")
  end.

(** [jwt.verify(token, secret)] at wall-clock [clock] (ms): structure,
    then algorithm and signature, then the time claims; the decoded
    payload is returned whole. *)
Definition verify (token : Token) (secret : string) (clock : Z) : Error + JObject :=
  match token with
  | Raw s =>
      if String.eqb s "" then inl (JsonWebTokenError "jwt must be provided")
      else if negb (Nat.eqb (parts s) 3) then inl (JsonWebTokenError "jwt malformed")
      else inl (JsonWebTokenError "invalid token")
  | Jws header payload signature =>
      if negb (bool_decide (alg header ∈ hs_algorithms))
      then inl (JsonWebTokenError "invalid algorithm")
      else if negb (String.eqb signature (jwa_sign (alg header) secret (header, payload)))
      then inl (JsonWebTokenError "invalid signature")
      else
        match check_nbf payload (clock / 1000) with
        | Some e => inl e
        | None =>
            match check_exp payload (clock / 1000) with
            | Some e => inl e
            | None => inr payload
            end
        end
  end.

End WithCrypto.
End jwt.

(** ** Asynchronous computations over a store

    An [async] method is a function from the store to an outcome and the
    store it leaves: [await] is bind, [throw] rejects and keeps the store
    as it was when the error was raised. *)

Definition Async (S A : Type) : Type := S → (Error + A) * S.

#[global] Instance Async_ret {S} : MRet (Async S) :=
  λ A x s, (inr x, s).

#[global] Instance Async_bind {S} : MBind (Async S) :=
  λ A B f m s,
    match m s with
    | (inr x, s') => f x s'
    | (inl e, s') => (inl e, s')
    end.

Definition throw {S A} (e : Error) : Async S A :=
  λ s, (inl e, s).

(** ** The [User] model *)

(** The request body that reaches [AuthService.register]. *)
Module UserData.
Record t : Type := mk {
  email : string;
  password : string;
  firstName : option string;
  lastName : option string
}.
End UserData.

Module User.

(** Modelled from the spec: a row of the users table as [src/models/User.js]
    declares it (the file is absent; the columns are those of the data
    model). [password] holds the salted hash, never the plaintext. *)
Record t : Type := mk {
  id : string;
  email : string;
  password : string;
  firstName : option string;
  lastName : option string;
  isActive : bool;
  lastLogin : option Z;
  createdAt : Z;
  updatedAt : Z
}.

#[global] Instance t_eq_dec : EqDecision t.
Proof. solve_decision. Defined.

(** The users table: its rows, oldest first. *)
Abbreviation Table := (list t).

Definition SequelizeUniqueConstraintError : Error :=
  {| name := "SequelizeUniqueConstraintError"; message := "Validation error" |}.

(** [User.findOne({ where: { email } })]: the first row with that email. *)
Definition findOne (where_email : string) : Async Table (option t) :=
  λ s, (inr (find (λ r, String.eqb (email r) where_email) s), s).

(** [User.findByPk(id)] *)
Definition findByPk (pk : string) : Async Table (option t) :=
  λ s, (inr (find (λ r, String.eqb (id r) pk) s), s).

(** [instance.update({ lastLogin: value })] at wall-clock [clock]: the
    statement [UPDATE users SET lastLogin, updatedAt WHERE id = instance.id],
    and the same two fields set on the instance, which is returned. *)
Definition set_lastLogin (value clock : Z) (r : t) : t :=
  {| id := id r; email := email r; password := password r;
     firstName := firstName r; lastName := lastName r; isActive := isActive r;
     lastLogin := Some value; createdAt := createdAt r; updatedAt := clock |}.

Definition update (instance : t) (value clock : Z) : Async Table t :=
  λ s, (inr (set_lastLogin value clock instance),
        map (λ r, if String.eqb (id r) (id instance) then set_lastLogin value clock r else r) s).

(** The instance's data values as a plain object. *)
Definition get (u : t) : JObject :=
  <["id" := JStr (id u)]> (
  <["email" := JStr (email u)]> (
  <["password" := JStr (password u)]> (
  <["firstName" := json_opt_str (firstName u)]> (
  <["lastName" := json_opt_str (lastName u)]> (
  <["isActive" := JBool (isActive u)]> (
  <["lastLogin" := json_opt_date (lastLogin u)]> (
  <["createdAt" := JDate (createdAt u)]> (
  <["updatedAt" := JDate (updatedAt u)]> ∅)))))))).

(** Modelled from the spec: [toJSON] of [src/models/User.js] (absent), the
    projection of a user: the record's values with the password hash
    removed. *)
Definition toJSON (u : t) : JObject :=
  delete "password" (get u).

Section WithCrypto.
Context `{Crypto}.

(** Modelled from the spec: [comparePassword] of [src/models/User.js]
    (absent): the supplied password against the stored hash, by the hash
    function's own comparison. *)
Definition comparePassword (u : t) (candidate : string) : bool :=
  bcrypt_compare candidate (password u).

(** Modelled from the spec: [User.create] with the hooks and defaults of
    [src/models/User.js] (absent): the store rejects a second row for an
    email (unique constraint); otherwise a row is inserted with a newly
    generated identifier, the salted hash of the password, [isActive]
    defaulting to true, no [lastLogin], and both timestamps at [clock]. *)
Definition create (values : UserData.t) (salt : string) (clock : Z) : Async Table t :=
  λ s,
    if existsb (λ r, String.eqb (email r) (UserData.email values)) s
    then (inl SequelizeUniqueConstraintError, s)
    else
      let u := {| id := fresh (map id s);
                  email := UserData.email values;
                  password := bcrypt_hash salt (UserData.password values);
                  firstName := UserData.firstName values;
                  lastName := UserData.lastName values;
                  isActive := true;
                  lastLogin := None;
                  createdAt := clock;
                  updatedAt := clock |} in
      (inr u, (s ++ [u])%list).

End WithCrypto.
End User.

(** ** [AuthService] *)

(** What [register] and [login] resolve to: [{ user, token }]. *)
Record AuthResult : Type := mkAuthResult {
  user : JObject;
  token : jwt.Token
}.

Module AuthService.
Section WithEnv.
Context `{Crypto} `{Config}.

(** [generateToken(user)]: signs [{ id: user.id, email: user.email }] with
    the module's secret and lifetime. *)
Definition generateToken (user : User.t) (clock : Z) : jwt.Token :=
  let payload : JObject :=
    <["id" := JStr (User.id user)]> (<["email" := JStr (User.email user)]> ∅) in
  jwt.sign payload JWT_SECRET JWT_EXPIRES_IN clock.

(** [verifyToken(token)]: the decoded payload of [jwt.verify], and one
    plain [Error] for whatever [jwt.verify] throws. *)
Definition verifyToken (token : jwt.Token) (clock : Z) : Error + JObject :=
  match jwt.verify token JWT_SECRET clock with
  | inr decoded => inr decoded
  | inl _ => inl (new_Error "Invalid or expired token")
  end.

(** [register(userData)] *)
Definition register (userData : UserData.t) (salt : string) (clock : Z)
  : Async User.Table AuthResult :=
  existingUser ← User.findOne (UserData.email userData);
  match existingUser with
  | Some _ => throw (new_Error "User with this email already exists")
  | None =>
      user ← User.create userData salt clock;
      let token := generateToken user clock in
      mret {| user := User.toJSON user; token := token |}
  end.

(** [login(email, password)] *)
Definition login (email password : string) (clock : Z)
  : Async User.Table AuthResult :=
  user ← User.findOne email;
  match user with
  | None => throw (new_Error "Invalid credentials")
  | Some user =>
      if negb (User.isActive user) then throw (new_Error "Account is disabled")
      else if negb (User.comparePassword user password)
      then throw (new_Error "Invalid credentials")
      else
        user ← User.update user clock clock;
        let token := generateToken user clock in
        mret {| user := User.toJSON user; token := token |}
  end.

(** [getUserById(userId)] *)
Definition getUserById (userId : string) : Async User.Table JObject :=
  user ← User.findByPk userId;
  match user with
  | None => throw (new_Error "User not found")
  | Some user => mret (User.toJSON user)
  end.

End WithEnv.
End AuthService.

(** ** Store invariants and runs of the service *)

(** At most one row per email (the unique constraint on [email]). *)
Definition unique_emails (s : User.Table) : Prop :=
  NoDup (map User.email s).

(** At most one row per identifier (the primary key). *)
Definition unique_ids (s : User.Table) : Prop :=
  NoDup (map User.id s).

(** The payload [generateToken] hands to [jwt.sign]. *)
Definition id_email_claims (id email : string) : JObject :=
  <["id" := JStr id]> (<["email" := JStr email]> ∅).

(** What [jwt.sign] makes of the payload of [generateToken] at wall-clock
    [issued]: the two claims plus [iat] and [exp]. *)
Definition issued_claims `{Config} (id email : string) (issued : Z) : JObject :=
  <["exp" := JNum (issued / 1000 + JWT_EXPIRES_IN / 1000)]>
    (<["iat" := JNum (issued / 1000)]> (id_email_claims id email)).

(** One call of the service, with the environment it observes. *)
Inductive Call : Type :=
| Register (userData : UserData.t) (salt : string)
| Login (email password : string)
| VerifyToken (token : jwt.Token)
| GetUserById (userId : string).

Definition is_register (c : Call) : bool :=
  match c with Register _ _ => true | _ => false end.

Section Runs.
Context `{Crypto} `{Config}.

(** The store a call leaves, whatever its outcome. [verifyToken] takes no
    store and leaves it as it is. *)
Definition step (c : Call) (clock : Z) (s : User.Table) : User.Table :=
  match c with
  | Register userData salt => snd (AuthService.register userData salt clock s)
  | Login email password => snd (AuthService.login email password clock s)
  | VerifyToken token => let _ := AuthService.verifyToken token clock in s
  | GetUserById userId => snd (AuthService.getUserById userId s)
  end.

(** A sequence of calls, each at its own clock reading. *)
Fixpoint run (calls : list (Call * Z)) (s : User.Table) : User.Table :=
  match calls with
  | [] => s
  | (c, clock) :: rest => run rest (step c clock s)
  end.

End Runs.

(** A user and a two-row store on which the model is run. *)
Definition alice : User.t :=
  {| User.id := "0"; User.email := "alice@example.com"; User.password := "hash:secret1";
     User.firstName := Some "Alice"; User.lastName := None; User.isActive := true;
     User.lastLogin := None; User.createdAt := 1000; User.updatedAt := 1000 |}.

Definition bob_disabled : User.t :=
  {| User.id := "1"; User.email := "bob@example.com"; User.password := "hash:hunter2";
     User.firstName := None; User.lastName := Some "B"; User.isActive := false;
     User.lastLogin := Some 1500; User.createdAt := 1200; User.updatedAt := 1500 |}.

Definition sample_store : User.Table := [alice; bob_disabled].

(** ** The request boundary: Koa contexts, middleware and controllers

    The part of a Koa context these handlers read and write, with the
    store and the environment of one request. A middleware is a function
    of the downstream computation [next]; [ctx.throw] raises an error that
    carries an HTTP status. Logging is not modelled. *)

Module Koa.

(** A value thrown at the boundary: a JavaScript error and, for the errors
    [ctx.throw] makes, its [status]. *)
Record Thrown : Type := mkThrown { error : Error; status : option Z }.

(** The class names [http-errors] gives to the statuses thrown here. *)
Definition http_name (code : Z) : string :=
  if Z.eqb code 400 then "BadRequestError"
  else if Z.eqb code 401 then "UnauthorizedError"
  else if Z.eqb code 404 then "NotFoundError"
  else if Z.eqb code 500 then "InternalServerError"
  else "HttpError".

(** The error of [ctx.throw(code, msg)]. *)
Definition createError (code : Z) (msg : string) : Thrown :=
  {| error := {| name := http_name code; message := msg |}; status := Some code |}.

(** An error that carries no status: one thrown by a service or a library. *)
Definition plain (e : Error) : Thrown :=
  {| error := e; status := None |}.

(** The [Authorization] header, with the token part kept as [jwt.Token]
    keeps tokens: [Text s] is the literal header [s], for a header that is
    not a bearer header or whose token part does not decode; [Bearer] is
    ['Bearer '] followed by a token that decodes to the three segments. *)
Inductive Authorization : Type :=
| Text (s : string)
| Bearer (header : Header) (payload : JObject) (signature : string).

(** The header a client builds from a token: [`Bearer ${token}`]. *)
Definition bearer (t : jwt.Token) : Authorization :=
  match t with
  | jwt.Raw s => Text ("Bearer " +:+ s)
  | jwt.Jws header payload signature => Bearer header payload signature
  end.

(** One entry of the [details] of a failed validation. *)
Record Detail : Type := mkDetail { field : string; detail_message : string }.

(** What the controllers put under [data]. *)
Inductive Data : Type :=
| DataAuth (result : AuthResult)
| DataUser (user : JObject).

(** The response bodies these handlers write:
    [{success: true, data}], the health payload,
    [{success: false, error: {message: 'Validation failed', details}}] and
    [{success: false, error: {message, stack?}}] (of the stack only its
    presence is kept). *)
Inductive ResponseBody : Type :=
| BodySuccess (data : Data)
| BodyHealth (timestamp : Z)
| BodyValidation (details : list Detail)
| BodyError (msg : string) (with_stack : bool).

(** The context of one request ([B] is the type of [ctx.request.body]),
    the users table, and what the request observes of its environment:
    the clock, the salt bcrypt draws, and whether [NODE_ENV] is
    ['development']. A fresh context has status 404 and no body. *)
Record World (B : Type) : Type := mkWorld {
  request_body : B;
  authorization : option Authorization;
  state_user : option JObject;
  ctx_status : Z;
  ctx_body : option ResponseBody;
  db : User.Table;
  now : Z;
  salt : string;
  development : bool
}.

Arguments mkWorld {B}.
Arguments request_body {B}.
Arguments authorization {B}.
Arguments state_user {B}.
Arguments ctx_status {B}.
Arguments ctx_body {B}.
Arguments db {B}.
Arguments now {B}.
Arguments salt {B}.
Arguments development {B}.

Definition set_request_body {B} (v : B) (w : World B) : World B :=
  mkWorld v (authorization w) (state_user w) (ctx_status w) (ctx_body w)
          (db w) (now w) (salt w) (development w).

Definition set_state_user {B} (v : option JObject) (w : World B) : World B :=
  mkWorld (request_body w) (authorization w) v (ctx_status w) (ctx_body w)
          (db w) (now w) (salt w) (development w).

Definition set_status {B} (v : Z) (w : World B) : World B :=
  mkWorld (request_body w) (authorization w) (state_user w) v (ctx_body w)
          (db w) (now w) (salt w) (development w).

Definition set_body {B} (v : option ResponseBody) (w : World B) : World B :=
  mkWorld (request_body w) (authorization w) (state_user w) (ctx_status w) v
          (db w) (now w) (salt w) (development w).

Definition set_db {B} (v : User.Table) (w : World B) : World B :=
  mkWorld (request_body w) (authorization w) (state_user w) (ctx_status w) (ctx_body w)
          v (now w) (salt w) (development w).

(** An [async (ctx, next) => ...] body. *)
Definition Handler (B A : Type) : Type := World B → (Thrown + A) * World B.

#[global] Instance Handler_ret {B} : MRet (Handler B) :=
  λ A x w, (inr x, w).

#[global] Instance Handler_bind {B} : MBind (Handler B) :=
  λ A C f m w,
    match m w with
    | (inr x, w') => f x w'
    | (inl e, w') => (inl e, w')
    end.

Definition raise {B A} (t : Thrown) : Handler B A :=
  λ w, (inl t, w).

(** [ctx.throw(code, msg)] *)
Definition ctx_throw {B A} (code : Z) (msg : string) : Handler B A :=
  raise (createError code msg).

(** [try { m } catch (error) { h error }]: what [m] wrote before it threw
    stays written. *)
Definition try_catch {B A} (m : Handler B A) (h : Thrown → Handler B A) : Handler B A :=
  λ w,
    match m w with
    | (inl e, w') => h e w'
    | (inr x, w') => (inr x, w')
    end.

Definition world {B} : Handler B (World B) :=
  λ w, (inr w, w).

Definition modify {B} (f : World B → World B) : Handler B unit :=
  λ w, (inr tt, f w).

(** [await] of a model or service call: it runs on the table. *)
Definition await {B A} (m : Async User.Table A) : Handler B A :=
  λ w,
    match m (db w) with
    | (inr x, s') => (inr x, set_db s' w)
    | (inl e, s') => (inl (plain e), set_db s' w)
    end.

(** A synchronous call that returns or throws. *)
Definition call {B A} (r : Error + A) : Handler B A :=
  match r with
  | inr x => mret x
  | inl e => raise (plain e)
  end.

End Koa.

(** [User.findByPk(v)] for a JavaScript value: [undefined] and [null] find
    nothing, and neither does a value that is not a string, the key column
    holding strings. *)
Definition findByPk_value (v : option JValue) : Async User.Table (option User.t) :=
  match v with
  | Some (JStr pk) => User.findByPk pk
  | _ => mret None
  end.

(** [AuthService.getUserById(v)] for a JavaScript value. *)
Definition getUserById_value (v : option JValue) : Async User.Table JObject :=
  match v with
  | Some (JStr pk) => AuthService.getUserById pk
  | _ => throw (new_Error "User not found")
  end.

(** [src/middleware/auth.js], [errorHandler.js] and [validator.js]. *)
Module middleware.
Import Koa.

(** The token of a header that passes
    [authHeader && authHeader.startsWith('Bearer ')]:
    [authHeader.substring(7)]. *)
Definition bearer_token (h : option Authorization) : option jwt.Token :=
  match h with
  | None => None
  | Some (Text s) =>
      if negb (String.eqb s "") && String.prefix "Bearer " s
      then Some (jwt.Raw (String.substring 7 (String.length s - 7) s))
      else None
  | Some (Bearer header payload signature) => Some (jwt.Jws header payload signature)
  end.

(** What Joi reports for one failed rule, and the outcome of
    [schema.validate(body, { abortEarly: false, stripUnknown: true })]. *)
Record JoiDetail : Type := mkJoiDetail { path : list string; joi_message : string }.

Record ValidationResult (B : Type) : Type := mkValidationResult {
  joi_error : option (list JoiDetail);
  value : B
}.

Arguments mkValidationResult {B}.
Arguments joi_error {B}.
Arguments value {B}.

Section WithEnv.
Context `{Crypto} `{Config}.

(** [authenticate(ctx, next)] *)
Definition authenticate {B} (next : Handler B unit) : Handler B unit :=
  try_catch
    (w ← world;
     token ← match bearer_token (authorization w) with
             | None => ctx_throw 401 "No token provided"
             | Some token => mret token
             end;
     decoded ← call (jwt.verify token JWT_SECRET (now w));
     user ← await (findByPk_value (decoded !! "id"));
     match user with
     | None => ctx_throw 401 "User not found"
     | Some user =>
         if negb (User.isActive user) then ctx_throw 401 "Account is disabled"
         else
           modify (set_state_user (Some (User.toJSON user)));;
           next
     end)
    (λ err,
       if String.eqb (name (error err)) "JsonWebTokenError"
       then ctx_throw 401 "Invalid token"
       else if String.eqb (name (error err)) "TokenExpiredError"
       then ctx_throw 401 "Token expired"
       else raise err).

(** [optionalAuth(ctx, next)] *)
Definition optionalAuth {B} (next : Handler B unit) : Handler B unit :=
  try_catch
    (w ← world;
     match bearer_token (authorization w) with
     | None => mret tt
     | Some token =>
         decoded ← call (jwt.verify token JWT_SECRET (now w));
         user ← await (findByPk_value (decoded !! "id"));
         match user with
         | Some user =>
             if User.isActive user
             then modify (set_state_user (Some (User.toJSON user)))
             else mret tt
         | None => mret tt
         end
     end)
    (λ _, mret tt);;
  next.

End WithEnv.

(** [errorHandler(ctx, next)]: the status is
    [err.status || err.statusCode || 500], the message
    [err.message || 'Internal server error']. *)
Definition errorHandler {B} (next : Handler B unit) : Handler B unit :=
  try_catch next
    (λ err,
       let status :=
         match status err with
         | Some code => if Z.eqb code 0 then 500 else code
         | None => 500
         end in
       let msg :=
         if String.eqb (message (error err)) "" then "Internal server error"
         else message (error err) in
       w ← world;
       modify (set_status status);;
       modify (set_body (Some (BodyError msg (development w))))).

(** [validate(schema)(ctx, next)] *)
Definition validate {B} (schema : B → ValidationResult B) (next : Handler B unit)
  : Handler B unit :=
  try_catch
    (w ← world;
     let result := schema (request_body w) in
     match joi_error result with
     | Some details =>
         let errors :=
           map (λ detail, {| field := String.concat "." (path detail);
                             detail_message := joi_message detail |}) details in
         modify (set_status 400);;
         modify (set_body (Some (BodyValidation errors)))
     | None =>
         modify (set_request_body (value result));;
         next
     end)
    (λ _, ctx_throw 500 "Validation error occurred").

End middleware.

(** The request body of [POST /api/auth/login]. *)
Module LoginBody.
Record t : Type := mk { email : string; password : string }.
End LoginBody.

(** [src/controllers/authController.js] *)
Module AuthController.
Import Koa.

(** What reading [ctx.state.user.id] throws when [ctx.state.user] is
    undefined (the wording is V8's). *)
Definition TypeError_user_undefined : Error :=
  {| name := "TypeError"; message := "Cannot read properties of undefined (reading 'id')" |}.

Section WithEnv.
Context `{Crypto} `{Config}.

(** [AuthController.register(ctx)] *)
Definition register : Handler UserData.t unit :=
  try_catch
    (w ← world;
     result ← await (AuthService.register (request_body w) (salt w) (now w));
     modify (set_status 201);;
     modify (set_body (Some (BodySuccess (DataAuth result)))))
    (λ err, ctx_throw 400 (message (error err))).

(** [AuthController.login(ctx)] *)
Definition login : Handler LoginBody.t unit :=
  try_catch
    (w ← world;
     let email := LoginBody.email (request_body w) in
     let password := LoginBody.password (request_body w) in
     result ← await (AuthService.login email password (now w));
     modify (set_status 200);;
     modify (set_body (Some (BodySuccess (DataAuth result)))))
    (λ err, ctx_throw 401 (message (error err))).

(** [AuthController.getProfile(ctx)] *)
Definition getProfile {B} : Handler B unit :=
  try_catch
    (w ← world;
     userId ← match state_user w with
              | None => raise (plain TypeError_user_undefined)
              | Some u => mret (u !! "id")
              end;
     user ← await (getUserById_value userId);
     modify (set_status 200);;
     modify (set_body (Some (BodySuccess (DataUser user)))))
    (λ err, ctx_throw 404 (message (error err))).

(** [AuthController.healthCheck(ctx)] *)
Definition healthCheck {B} : Handler B unit :=
  w ← world;
  modify (set_status 200);;
  modify (set_body (Some (BodyHealth (now w)))).

End WithEnv.
End AuthController.

(** A fresh request on a store. *)
Definition request {B} (body : B) (auth : option Koa.Authorization)
    (s : User.Table) (clock : Z) : Koa.World B :=
  Koa.mkWorld body auth None 404 None s clock "salt" false.

(** What the [catch] of [authenticate] makes of a thrown value: the two
    jsonwebtoken error names become 401s, anything else is thrown again as
    it is. *)
Definition authenticate_catch (err : Koa.Thrown) : Koa.Thrown :=
  if String.eqb (name (Koa.error err)) "JsonWebTokenError"
  then Koa.createError 401 "Invalid token"
  else if String.eqb (name (Koa.error err)) "TokenExpiredError"
  then Koa.createError 401 "Token expired"
  else err.

(** The downstream computation as [authenticate] lets it be seen: what it
    throws goes through the catch. *)
Definition guarded {B} (next : Koa.Handler B unit) : Koa.Handler B unit :=
  λ w,
    match next w with
    | (inl t, w') => (inl (authenticate_catch t), w')
    | (inr x, w') => (inr x, w')
    end.

(** The row a JavaScript value identifies as a primary key. *)
Definition row_of_pk (v : option JValue) (s : User.Table) : option User.t :=
  match v with
  | Some (JStr pk) => find (λ r, String.eqb (User.id r) pk) s
  | _ => None
  end.

(** A schema on which [validate] is run: the email and the password of a
    login body must not be empty. *)
Definition sample_login_schema (body : LoginBody.t)
  : middleware.ValidationResult LoginBody.t :=
  let details :=
    ((if String.eqb (LoginBody.email body) ""
      then [middleware.mkJoiDetail ["email"] "Email is required"] else [])
     ++ (if String.eqb (LoginBody.password body) ""
         then [middleware.mkJoiDetail ["password"] "Password is required"] else []))%list in
  {| middleware.joi_error := match details with [] => None | _ => Some details end;
     middleware.value := body |}.

(** * Properties *)

(** ** Lookups in the table *)

Section TableFacts.

Lemma findOne_absent (s : User.Table) (e : string) :
  e ∉ map User.email s →
  User.findOne e s = (inr None, s).
Proof.
  intros Hno. unfold User.findOne. f_equal. f_equal.
  induction s as [|r s IH]; simpl; [reflexivity|].
  destruct (String.eqb_spec (User.email r) e) as [Heq|Hne].
  - exfalso. apply Hno. simpl. rewrite Heq. left.
  - apply IH. intros Hin. apply Hno. simpl. right. exact Hin.
Qed.

Lemma findOne_present (s : User.Table) (u : User.t) :
  unique_emails s → u ∈ s →
  User.findOne (User.email u) s = (inr (Some u), s).
Proof.
  unfold unique_emails, User.findOne. intros Hnd Hin. f_equal. f_equal.
  induction s as [|r s IH]; simpl in *.
  - inversion Hin.
  - apply NoDup_cons in Hnd as [Hr Hnd].
    destruct (String.eqb_spec (User.email r) (User.email u)) as [Heq|Hne].
    + apply elem_of_cons in Hin as [->|Hin]; [reflexivity|].
      exfalso. apply Hr. rewrite Heq. apply list_elem_of_fmap_2. exact Hin.
    + apply elem_of_cons in Hin as [->|Hin]; [congruence|]. apply IH; assumption.
Qed.

Lemma findOne_some_email (s : User.Table) (u : User.t) :
  u ∈ s → ∃ r, User.findOne (User.email u) s = (inr (Some r), s).
Proof.
  unfold User.findOne. intros Hin.
  destruct (find (λ r, String.eqb (User.email r) (User.email u)) s) as [r|] eqn:Hf.
  - exists r. reflexivity.
  - exfalso. apply list_elem_of_In in Hin.
    pose proof (find_none _ _ Hf _ Hin) as Hn. simpl in Hn.
    rewrite String.eqb_refl in Hn. discriminate.
Qed.

Lemma findByPk_absent (s : User.Table) (pk : string) :
  pk ∉ map User.id s →
  User.findByPk pk s = (inr None, s).
Proof.
  intros Hno. unfold User.findByPk. f_equal. f_equal.
  induction s as [|r s IH]; simpl; [reflexivity|].
  destruct (String.eqb_spec (User.id r) pk) as [Heq|Hne].
  - exfalso. apply Hno. simpl. rewrite Heq. left.
  - apply IH. intros Hin. apply Hno. simpl. right. exact Hin.
Qed.

Lemma findByPk_present (s : User.Table) (u : User.t) :
  unique_ids s → u ∈ s →
  User.findByPk (User.id u) s = (inr (Some u), s).
Proof.
  unfold unique_ids, User.findByPk. intros Hnd Hin. f_equal. f_equal.
  induction s as [|r s IH]; simpl in *.
  - inversion Hin.
  - apply NoDup_cons in Hnd as [Hr Hnd].
    destruct (String.eqb_spec (User.id r) (User.id u)) as [Heq|Hne].
    + apply elem_of_cons in Hin as [->|Hin]; [reflexivity|].
      exfalso. apply Hr. rewrite Heq. apply list_elem_of_fmap_2. exact Hin.
    + apply elem_of_cons in Hin as [->|Hin]; [congruence|]. apply IH; assumption.
Qed.

End TableFacts.

(** ** The token codec *)

Section TokenFacts.
Context `{Crypto} `{Config}.

Lemma generateToken_unfold (u : User.t) (issued : Z) :
  AuthService.generateToken u issued =
  let header := {| alg := "HS256"; typ := "JWT" |} in
  let claims := issued_claims (User.id u) (User.email u) issued in
  jwt.Jws header claims (jwa_sign "HS256" JWT_SECRET (header, claims)).
Proof.
  unfold AuthService.generateToken, jwt.sign, issued_claims, id_email_claims.
  rewrite lookup_insert_ne by discriminate.
  rewrite lookup_insert_ne by discriminate.
  rewrite lookup_empty. reflexivity.
Qed.

Lemma issued_claims_nbf (id email : string) (issued : Z) :
  issued_claims id email issued !! "nbf" = None.
Proof.
  unfold issued_claims, id_email_claims.
  repeat (rewrite lookup_insert_ne by discriminate). apply lookup_empty.
Qed.

Lemma issued_claims_exp (id email : string) (issued : Z) :
  issued_claims id email issued !! "exp" =
  Some (JNum (issued / 1000 + JWT_EXPIRES_IN / 1000)).
Proof. unfold issued_claims. apply lookup_insert_eq. Qed.

(** [jwt.verify] on a token of [generateToken]: the signature matches, and
    the outcome is decided by the expiry instant alone. *)
Lemma verify_generateToken (u : User.t) (issued verified : Z) :
  jwt.verify (AuthService.generateToken u issued) JWT_SECRET verified =
  if verified / 1000 >=? issued / 1000 + JWT_EXPIRES_IN / 1000
  then inl jwt.TokenExpiredError
  else inr (issued_claims (User.id u) (User.email u) issued).
Proof.
  rewrite generateToken_unfold. cbv zeta. unfold jwt.verify.
  cbn [alg]. rewrite String.eqb_refl. cbn [negb].
  replace (bool_decide ("HS256" ∈ jwt.hs_algorithms)) with true by reflexivity.
  cbn [negb]. unfold jwt.check_nbf, jwt.check_exp.
  rewrite issued_claims_nbf, issued_claims_exp.
  destruct (verified / 1000 >=? issued / 1000 + JWT_EXPIRES_IN / 1000); reflexivity.
Qed.

(** [verifyToken] never lets an error of [jwt.verify] through. *)
Lemma verifyToken_cases (token : jwt.Token) (clock : Z) :
  (∃ decoded, jwt.verify token JWT_SECRET clock = inr decoded
              ∧ AuthService.verifyToken token clock = inr decoded)
  ∨ (∃ e, jwt.verify token JWT_SECRET clock = inl e
          ∧ AuthService.verifyToken token clock = inl InvalidOrExpiredTokenError).
Proof.
  unfold AuthService.verifyToken.
  destruct (jwt.verify token JWT_SECRET clock) as [e|decoded].
  - right. exists e. split; reflexivity.
  - left. exists decoded. split; reflexivity.
Qed.

End TokenFacts.

(** C1 (as amended). Token round-trip: for every user id and email, a token
    issued for them and verified before its lifetime has elapsed is
    accepted, and the decoded claims are the id and email used at issuance
    together with the issued-at and expiry instants that signing added:
    [{id, email, iat, exp}]. *)
Theorem verifyToken_generateToken_round_trip `{Crypto} `{Config}
    (u : User.t) (issued verified : Z) :
  verified / 1000 < issued / 1000 + JWT_EXPIRES_IN / 1000 →
  ∃ decoded,
    AuthService.verifyToken (AuthService.generateToken u issued) verified = inr decoded
    ∧ decoded !! "id" = Some (JStr (User.id u))
    ∧ decoded !! "email" = Some (JStr (User.email u))
    ∧ decoded =
        <["exp" := JNum (issued / 1000 + JWT_EXPIRES_IN / 1000)]>
          (<["iat" := JNum (issued / 1000)]>
             (id_email_claims (User.id u) (User.email u)))
    ∧ dom decoded = {["id"; "email"; "iat"; "exp"]}.
Proof.
  intros Hlive.
  exists (issued_claims (User.id u) (User.email u) issued).
  split.
  - unfold AuthService.verifyToken. rewrite verify_generateToken.
    destruct (Z.geb_spec (verified / 1000) (issued / 1000 + JWT_EXPIRES_IN / 1000)); [lia|].
    reflexivity.
  - unfold issued_claims, id_email_claims. split; [|split; [|split]].
    + repeat (rewrite lookup_insert_ne by discriminate). apply lookup_insert_eq.
    + repeat (rewrite lookup_insert_ne by discriminate). apply lookup_insert_eq.
    + reflexivity.
    + rewrite !dom_insert_L, dom_empty_L. set_solver.
Qed.

Lemma verifyToken_generateToken_round_trip_witness :
  1500 / 1000 < 1500 / 1000 + @JWT_EXPIRES_IN default_config / 1000
  ∧ ∃ decoded,
      @AuthService.verifyToken test_crypto default_config
        (@AuthService.generateToken test_crypto default_config alice 1500) 1500 = inr decoded
      ∧ decoded !! "id" = Some (JStr "0")
      ∧ decoded !! "email" = Some (JStr "alice@example.com")
      ∧ decoded =
          <["exp" := JNum 86401]> (<["iat" := JNum 1]> (id_email_claims "0" "alice@example.com"))
      ∧ dom decoded = {["id"; "email"; "iat"; "exp"]}.
Proof.
  split; [vm_compute; reflexivity|].
  apply (@verifyToken_generateToken_round_trip test_crypto default_config alice 1500 1500).
  vm_compute; reflexivity.
Defined.

(** C1 (as stated) fails: verifying the token issued for id ["0"] and email
    ["alice@example.com"] does not return [{id, email}] exactly; it
    succeeds with an object that also has an [iat] and an [exp] field. *)
Lemma verifyToken_claims_not_only_id_email :
  @AuthService.verifyToken test_crypto default_config
    (@AuthService.generateToken test_crypto default_config alice 1500) 1500
  ≠ inr (id_email_claims "0" "alice@example.com")
  ∧ ∃ decoded,
      @AuthService.verifyToken test_crypto default_config
        (@AuthService.generateToken test_crypto default_config alice 1500) 1500 = inr decoded
      ∧ decoded !! "iat" = Some (JNum 1)
      ∧ decoded !! "exp" = Some (JNum 86401).
Proof.
  destruct (@verifyToken_cases test_crypto default_config
              (@AuthService.generateToken test_crypto default_config alice 1500) 1500)
    as [(decoded & Hv & Hd)|(e & Hv & _)].
  - rewrite verify_generateToken in Hv. vm_compute in Hv.
    injection Hv as <-. split.
    + rewrite Hd. intros Heq.
      apply (f_equal (λ r : Error + JObject,
                        match r with inr m => m !! "iat" | inl _ => None end)) in Heq.
      vm_compute in Heq. discriminate.
    + eexists. split; [exact Hd|]. split; reflexivity.
  - rewrite verify_generateToken in Hv. vm_compute in Hv. discriminate.
Qed.

(** C5. Uniform token-failure reporting: whatever [jwt.verify] throws,
    [verifyToken] raises the one error [InvalidOrExpiredTokenError]; this
    holds for a string that does not decode, for a token whose signature
    does not match, and for a token of [generateToken] verified once its
    lifetime has elapsed (which [jwt.verify] reports as
    [TokenExpiredError]): the caller sees the same error in all three. *)
Theorem verifyToken_failure_uniform `{Crypto} `{Config} :
  (∀ token clock e,
      jwt.verify token JWT_SECRET clock = inl e →
      AuthService.verifyToken token clock = inl InvalidOrExpiredTokenError)
  ∧ (∀ token clock e,
      AuthService.verifyToken token clock = inl e → e = InvalidOrExpiredTokenError)
  ∧ (∀ raw clock,
      AuthService.verifyToken (jwt.Raw raw) clock = inl InvalidOrExpiredTokenError)
  ∧ (∀ header payload signature clock,
      signature ≠ jwa_sign (alg header) JWT_SECRET (header, payload) →
      AuthService.verifyToken (jwt.Jws header payload signature) clock
      = inl InvalidOrExpiredTokenError)
  ∧ (∀ (u : User.t) (issued verified : Z),
      (issued / 1000 + JWT_EXPIRES_IN / 1000 ≤ verified / 1000)%Z →
      jwt.verify (AuthService.generateToken u issued) JWT_SECRET verified
      = inl jwt.TokenExpiredError
      ∧ AuthService.verifyToken (AuthService.generateToken u issued) verified
        = inl InvalidOrExpiredTokenError).
Proof.
  assert (Hany : ∀ token clock e,
             jwt.verify token JWT_SECRET clock = inl e →
             AuthService.verifyToken token clock = inl InvalidOrExpiredTokenError).
  { intros token clock e He. unfold AuthService.verifyToken. rewrite He. reflexivity. }
  split; [exact Hany|]. split; [|split; [|split]].
  - intros token clock e He.
    destruct (verifyToken_cases token clock) as [(d & _ & Hd)|(e' & _ & He')]; congruence.
  - intros raw clock.
    destruct (jwt.verify (jwt.Raw raw) JWT_SECRET clock) as [e|d] eqn:Hv.
    + exact (Hany _ _ _ Hv).
    + exfalso. simpl in Hv.
      destruct (String.eqb raw ""); [discriminate|].
      destruct (negb (Nat.eqb (jwt.parts raw) 3)); discriminate.
  - intros header payload signature clock Hsig.
    apply (Hany _ _ (jwt.JsonWebTokenError
                       (if bool_decide (alg header ∈ jwt.hs_algorithms)
                        then "invalid signature" else "invalid algorithm"))).
    simpl. destruct (bool_decide (alg header ∈ jwt.hs_algorithms)); simpl; [|reflexivity].
    destruct (String.eqb_spec signature (jwa_sign (alg header) JWT_SECRET (header, payload)));
      [contradiction|reflexivity].
  - intros u issued verified Hexp.
    assert (Hv : jwt.verify (AuthService.generateToken u issued) JWT_SECRET verified
                 = inl jwt.TokenExpiredError).
    { rewrite verify_generateToken.
      destruct (Z.geb_spec (verified / 1000) (issued / 1000 + JWT_EXPIRES_IN / 1000));
        [reflexivity|lia]. }
    split; [exact Hv|exact (Hany _ _ _ Hv)].
Qed.

Lemma verifyToken_failure_uniform_witness :
  (1500 / 1000 + @JWT_EXPIRES_IN default_config / 1000 ≤ 86401000 / 1000)%Z
  ∧ @AuthService.verifyToken test_crypto default_config
      (@AuthService.generateToken test_crypto default_config alice 1500) 86401000
    = inl InvalidOrExpiredTokenError
  ∧ @AuthService.verifyToken test_crypto default_config (jwt.Raw "invalid.token.here") 86401000
    = inl InvalidOrExpiredTokenError.
Proof.
  pose proof (@verifyToken_failure_uniform test_crypto default_config)
    as (_ & _ & Hraw & _ & Hexp).
  assert (Hle : (1500 / 1000 + @JWT_EXPIRES_IN default_config / 1000 ≤ 86401000 / 1000)%Z).
  { vm_compute. discriminate. }
  split; [exact Hle|]. split.
  - exact (proj2 (Hexp alice 1500 86401000 Hle)).
  - exact (Hraw "invalid.token.here" 86401000).
Defined.

(** ** The session service *)

Section ServiceFacts.
Context `{Crypto} `{Config}.

(** [login] as one case analysis on the row the lookup returns. *)
Lemma login_unfold (email password : string) (clock : Z) (s : User.Table) :
  AuthService.login email password clock s =
  match find (λ r, String.eqb (User.email r) email) s with
  | None => (inl InvalidCredentialsError, s)
  | Some u =>
      if negb (User.isActive u) then (inl AccountDisabledError, s)
      else if negb (User.comparePassword u password) then (inl InvalidCredentialsError, s)
      else
        let u' := User.set_lastLogin clock clock u in
        (inr {| user := User.toJSON u'; token := AuthService.generateToken u' clock |},
         map (λ r, if String.eqb (User.id r) (User.id u)
                   then User.set_lastLogin clock clock r else r) s)
  end.
Proof.
  unfold AuthService.login, mbind, Async_bind, User.findOne.
  destruct (find _ s) as [u|]; [|reflexivity].
  destruct (negb (User.isActive u)); [reflexivity|].
  destruct (negb (User.comparePassword u password)); reflexivity.
Qed.

(** [register] as one case analysis on the lookup by email. *)
Lemma register_unfold (userData : UserData.t) (salt : string) (clock : Z) (s : User.Table) :
  AuthService.register userData salt clock s =
  match find (λ r, String.eqb (User.email r) (UserData.email userData)) s with
  | Some _ => (inl DuplicateAccountError, s)
  | None =>
      match User.create userData salt clock s with
      | (inr u, s') =>
          (inr {| user := User.toJSON u; token := AuthService.generateToken u clock |}, s')
      | (inl e, s') => (inl e, s')
      end
  end.
Proof.
  unfold AuthService.register, mbind, Async_bind, User.findOne.
  destruct (find _ s) as [u|]; [reflexivity|].
  destruct (User.create userData salt clock s) as [[e|u] s']; reflexivity.
Qed.

Lemma getUserById_unfold (userId : string) (s : User.Table) :
  AuthService.getUserById userId s =
  match find (λ r, String.eqb (User.id r) userId) s with
  | None => (inl UserNotFoundError, s)
  | Some u => (inr (User.toJSON u), s)
  end.
Proof.
  unfold AuthService.getUserById, mbind, Async_bind, User.findByPk.
  destruct (find _ s); reflexivity.
Qed.

Lemma find_email_absent (s : User.Table) (e : string) :
  e ∉ map User.email s → find (λ r, String.eqb (User.email r) e) s = None.
Proof.
  intros Hno. pose proof (findOne_absent s e Hno) as Hf.
  unfold User.findOne in Hf. congruence.
Qed.

Lemma find_email_present (s : User.Table) (u : User.t) :
  unique_emails s → u ∈ s →
  find (λ r, String.eqb (User.email r) (User.email u)) s = Some u.
Proof.
  intros Hnd Hin. pose proof (findOne_present s u Hnd Hin) as Hf.
  unfold User.findOne in Hf. congruence.
Qed.

Lemma find_id_absent (s : User.Table) (pk : string) :
  pk ∉ map User.id s → find (λ r, String.eqb (User.id r) pk) s = None.
Proof.
  intros Hno. pose proof (findByPk_absent s pk Hno) as Hf.
  unfold User.findByPk in Hf. congruence.
Qed.

Lemma find_id_present (s : User.Table) (u : User.t) :
  unique_ids s → u ∈ s →
  find (λ r, String.eqb (User.id r) (User.id u)) s = Some u.
Proof.
  intros Hnd Hin. pose proof (findByPk_present s u Hnd Hin) as Hf.
  unfold User.findByPk in Hf. congruence.
Qed.

End ServiceFacts.

(** Closed decidable facts about the sample data are settled by running
    their decision procedure. *)
Ltac by_running := apply (bool_decide_unpack _); vm_compute; exact I.

(** C2. Credential-failure indistinguishability: in every store, [login]
    with an email that matches no user and [login] with the email of an
    existing active user and a password that does not match the stored
    hash both fail with [InvalidCredentialsError] (message
    ['Invalid credentials']) and leave the store as it was: the two
    outcomes are equal. *)
Theorem login_credential_failures_indistinguishable `{Crypto} `{Config}
    (s : User.Table) (absent password1 : string) (u : User.t) (password2 : string)
    (clock : Z) :
  absent ∉ map User.email s →
  unique_emails s → u ∈ s → User.isActive u = true →
  User.comparePassword u password2 = false →
  AuthService.login absent password1 clock s = (inl InvalidCredentialsError, s)
  ∧ AuthService.login (User.email u) password2 clock s = (inl InvalidCredentialsError, s)
  ∧ AuthService.login absent password1 clock s
    = AuthService.login (User.email u) password2 clock s
  ∧ message InvalidCredentialsError = "Invalid credentials".
Proof.
  intros Habsent Hnd Hin Hactive Hpw.
  assert (H1 : AuthService.login absent password1 clock s = (inl InvalidCredentialsError, s)).
  { rewrite login_unfold, (find_email_absent s absent Habsent). reflexivity. }
  assert (H2 : AuthService.login (User.email u) password2 clock s
               = (inl InvalidCredentialsError, s)).
  { rewrite login_unfold, (find_email_present s u Hnd Hin), Hactive, Hpw. reflexivity. }
  split; [exact H1|]. split; [exact H2|]. split; [congruence|reflexivity].
Qed.

Lemma login_credential_failures_indistinguishable_witness :
  @AuthService.login test_crypto default_config "carol@example.com" "secret1" 5000 sample_store
  = (inl InvalidCredentialsError, sample_store)
  ∧ @AuthService.login test_crypto default_config "alice@example.com" "wrong" 5000 sample_store
    = (inl InvalidCredentialsError, sample_store).
Proof.
  assert (Habsent : "carol@example.com" ∉ map User.email sample_store) by by_running.
  assert (Hnd : unique_emails sample_store) by by_running.
  assert (Hin : alice ∈ sample_store) by by_running.
  assert (Hactive : User.isActive alice = true) by reflexivity.
  assert (Hpw : @User.comparePassword test_crypto alice "wrong" = false) by (vm_compute; reflexivity).
  destruct (@login_credential_failures_indistinguishable test_crypto default_config
              sample_store "carol@example.com" "secret1" alice "wrong" 5000
              Habsent Hnd Hin Hactive Hpw) as (H1 & H2 & _ & _).
  split; [exact H1|exact H2].
Defined.

(** C3. In every store that holds a user with a given email, and for every
    password (and names, salt and clock), [register] with that email fails
    with [DuplicateAccountError] and leaves the store as it was: no row is
    created. *)
Theorem register_existing_email_rejected `{Crypto} `{Config}
    (s : User.Table) (u : User.t) (userData : UserData.t) (salt : string) (clock : Z) :
  u ∈ s → User.email u = UserData.email userData →
  AuthService.register userData salt clock s = (inl DuplicateAccountError, s)
  ∧ length (snd (AuthService.register userData salt clock s)) = length s.
Proof.
  intros Hin Hemail.
  assert (Hr : AuthService.register userData salt clock s = (inl DuplicateAccountError, s)).
  { rewrite register_unfold.
    destruct (findOne_some_email s u Hin) as [r Hr].
    unfold User.findOne in Hr. rewrite Hemail in Hr.
    assert (Hf : find (λ r, String.eqb (User.email r) (UserData.email userData)) s = Some r)
      by congruence.
    rewrite Hf. reflexivity. }
  split; [exact Hr|]. rewrite Hr. reflexivity.
Qed.

Lemma register_existing_email_rejected_witness :
  @AuthService.register test_crypto default_config
    (UserData.mk "alice@example.com" "another-password" None None) "salt" 5000 sample_store
  = (inl DuplicateAccountError, sample_store).
Proof.
  assert (Hin : alice ∈ sample_store) by by_running.
  exact (proj1 (@register_existing_email_rejected test_crypto default_config sample_store alice
                  (UserData.mk "alice@example.com" "another-password" None None) "salt" 5000
                  Hin eq_refl)).
Defined.

(** C4. For every user whose [isActive] flag is false, [login] with that
    user's email fails with [AccountDisabledError] even when the supplied
    password is the correct one, and the store, [lastLogin] included, is
    left as it was. *)
Theorem login_disabled_account_rejected `{Crypto} `{Config}
    (s : User.Table) (u : User.t) (password : string) (clock : Z) :
  unique_emails s → u ∈ s → User.isActive u = false →
  User.comparePassword u password = true →
  AuthService.login (User.email u) password clock s = (inl AccountDisabledError, s)
  ∧ snd (AuthService.login (User.email u) password clock s) = s
  ∧ User.findOne (User.email u) (snd (AuthService.login (User.email u) password clock s))
    = (inr (Some u), s).
Proof.
  intros Hnd Hin Hdisabled _.
  assert (Hl : AuthService.login (User.email u) password clock s = (inl AccountDisabledError, s)).
  { rewrite login_unfold, (find_email_present s u Hnd Hin), Hdisabled. reflexivity. }
  rewrite Hl. simpl. split; [reflexivity|]. split; [reflexivity|].
  apply findOne_present; assumption.
Qed.

Lemma login_disabled_account_rejected_witness :
  @User.comparePassword test_crypto bob_disabled "hunter2" = true
  ∧ @AuthService.login test_crypto default_config "bob@example.com" "hunter2" 5000 sample_store
    = (inl AccountDisabledError, sample_store).
Proof.
  assert (Hnd : unique_emails sample_store) by by_running.
  assert (Hin : bob_disabled ∈ sample_store) by by_running.
  assert (Hpw : @User.comparePassword test_crypto bob_disabled "hunter2" = true)
    by (vm_compute; reflexivity).
  split; [exact Hpw|].
  exact (proj1 (@login_disabled_account_rejected test_crypto default_config sample_store
                  bob_disabled "hunter2" 5000 Hnd Hin eq_refl Hpw)).
Defined.

(** C10. The disabled-account check precedes password verification: for
    every user whose [isActive] flag is false and every supplied password,
    whatever the password comparison would answer, [login] fails with
    [AccountDisabledError] and not with [InvalidCredentialsError]; the
    outcome differs from that of a [login] with an email that matches no
    user, so a caller who does not know the password can tell that the
    disabled account exists. *)
Theorem login_disabled_check_precedes_password `{Crypto} `{Config}
    (s : User.Table) (u : User.t) (password : string) (clock : Z) :
  unique_emails s → u ∈ s → User.isActive u = false →
  fst (AuthService.login (User.email u) password clock s) = inl AccountDisabledError
  ∧ fst (AuthService.login (User.email u) password clock s) ≠ inl InvalidCredentialsError
  ∧ (∀ absent password', absent ∉ map User.email s →
       fst (AuthService.login absent password' clock s)
       ≠ fst (AuthService.login (User.email u) password clock s)).
Proof.
  intros Hnd Hin Hdisabled.
  assert (Hl : fst (AuthService.login (User.email u) password clock s)
               = inl AccountDisabledError).
  { rewrite login_unfold, (find_email_present s u Hnd Hin), Hdisabled. reflexivity. }
  rewrite Hl. split; [reflexivity|]. split; [discriminate|].
  intros absent password' Habsent.
  rewrite login_unfold, (find_email_absent s absent Habsent). discriminate.
Qed.

Lemma login_disabled_check_precedes_password_witness :
  @User.comparePassword test_crypto bob_disabled "not-the-password" = false
  ∧ fst (@AuthService.login test_crypto default_config "bob@example.com" "not-the-password"
           5000 sample_store)
    = inl AccountDisabledError.
Proof.
  assert (Hnd : unique_emails sample_store) by by_running.
  assert (Hin : bob_disabled ∈ sample_store) by by_running.
  split; [vm_compute; reflexivity|].
  exact (proj1 (@login_disabled_check_precedes_password test_crypto default_config sample_store
                  bob_disabled "not-the-password" 5000 Hnd Hin eq_refl)).
Defined.

(** ** Projections and row updates *)

Section ProjectionFacts.

Lemma toJSON_password (u : User.t) : User.toJSON u !! "password" = None.
Proof. unfold User.toJSON. apply lookup_delete_eq. Qed.

Lemma toJSON_other (u : User.t) (k : string) :
  k ≠ "password" → User.toJSON u !! k = User.get u !! k.
Proof. intros Hk. unfold User.toJSON. apply lookup_delete_ne. congruence. Qed.

Lemma toJSON_dom (u : User.t) :
  dom (User.toJSON u) =
  {["id"; "email"; "firstName"; "lastName"; "isActive"; "lastLogin"; "createdAt"; "updatedAt"]}.
Proof. unfold User.toJSON, User.get. vm_compute. reflexivity. Qed.

Lemma toJSON_no_password_field (u : User.t) : "password" ∉ dom (User.toJSON u).
Proof. rewrite elem_of_dom, toJSON_password. intros [v Hv]. discriminate. Qed.

Lemma get_email (u : User.t) : User.get u !! "email" = Some (JStr (User.email u)).
Proof.
  unfold User.get. rewrite lookup_insert_ne by discriminate. apply lookup_insert_eq.
Qed.

Lemma get_id (u : User.t) : User.get u !! "id" = Some (JStr (User.id u)).
Proof. unfold User.get. apply lookup_insert_eq. Qed.

Lemma get_isActive (u : User.t) : User.get u !! "isActive" = Some (JBool (User.isActive u)).
Proof.
  unfold User.get. repeat (rewrite lookup_insert_ne by discriminate). apply lookup_insert_eq.
Qed.

Lemma get_lastLogin (u : User.t) :
  User.get u !! "lastLogin" = Some (json_opt_date (User.lastLogin u)).
Proof.
  unfold User.get. repeat (rewrite lookup_insert_ne by discriminate). apply lookup_insert_eq.
Qed.

Lemma existsb_email_absent (s : User.Table) (e : string) :
  e ∉ map User.email s → existsb (λ r, String.eqb (User.email r) e) s = false.
Proof.
  intros Hno. induction s as [|r s IH]; simpl; [reflexivity|].
  destruct (String.eqb_spec (User.email r) e) as [Heq|Hne].
  - exfalso. apply Hno. simpl. rewrite Heq. left.
  - apply IH. intros Hin. apply Hno. simpl. right. exact Hin.
Qed.

Lemma find_email_None (s : User.Table) (e : string) :
  find (λ r, String.eqb (User.email r) e) s = None → e ∉ map User.email s.
Proof.
  intros Hf Hin. apply list_elem_of_fmap in Hin as (r & -> & Hr).
  apply list_elem_of_In in Hr.
  pose proof (find_none _ _ Hf _ Hr) as Hn. simpl in Hn.
  rewrite String.eqb_refl in Hn. discriminate.
Qed.

Lemma unique_ids_inj (s : User.Table) (r u : User.t) :
  unique_ids s → r ∈ s → u ∈ s → User.id r = User.id u → r = u.
Proof.
  unfold unique_ids. induction s as [|x s IH]; intros Hnd Hr Hu Hid; [inversion Hr|].
  simpl in Hnd. apply NoDup_cons in Hnd as [Hx Hnd].
  apply elem_of_cons in Hr as [->|Hr]; apply elem_of_cons in Hu as [->|Hu].
  - reflexivity.
  - exfalso. apply Hx. rewrite Hid. apply list_elem_of_fmap_2. exact Hu.
  - exfalso. apply Hx. rewrite <- Hid. apply list_elem_of_fmap_2. exact Hr.
  - apply IH; assumption.
Qed.

(** The row update of [instance.update] keeps every identifier and email
    where it is. *)
Lemma update_rows_ids (pk : string) (value clock : Z) (s : User.Table) :
  map User.id (map (λ r, if String.eqb (User.id r) pk
                         then User.set_lastLogin value clock r else r) s)
  = map User.id s.
Proof.
  rewrite map_map. apply map_ext. intros r.
  destruct (String.eqb (User.id r) pk); reflexivity.
Qed.

Lemma update_rows_emails (pk : string) (value clock : Z) (s : User.Table) :
  map User.email (map (λ r, if String.eqb (User.id r) pk
                            then User.set_lastLogin value clock r else r) s)
  = map User.email s.
Proof.
  rewrite map_map. apply map_ext. intros r.
  destruct (String.eqb (User.id r) pk); reflexivity.
Qed.

End ProjectionFacts.

(** C6. Successful registration: for every (email, password) pair, the
    valid ones included, whose email matches no existing user, [register]
    succeeds; it appends one row to the store, with that email, the salted
    hash of the password, a new identifier and [isActive = true]; it
    returns the projection of that row, which has no [password] field, and
    the token issued for the new user. *)
Theorem register_new_email_succeeds `{Crypto} `{Config}
    (s : User.Table) (userData : UserData.t) (salt : string) (clock : Z) :
  UserData.email userData ∉ map User.email s →
  ∃ u : User.t,
    AuthService.register userData salt clock s
    = (inr {| user := User.toJSON u; token := AuthService.generateToken u clock |},
       (s ++ [u])%list)
    ∧ User.email u = UserData.email userData
    ∧ User.password u = bcrypt_hash salt (UserData.password userData)
    ∧ User.isActive u = true
    ∧ (User.id u ∉ map User.id s)
    ∧ User.toJSON u !! "password" = None
    ∧ ("password" ∉ dom (User.toJSON u))
    ∧ User.toJSON u !! "email" = Some (JStr (UserData.email userData))
    ∧ User.toJSON u !! "isActive" = Some (JBool true).
Proof.
  intros Hnew.
  rewrite register_unfold, (find_email_absent s _ Hnew).
  unfold User.create. rewrite (existsb_email_absent s _ Hnew).
  eexists. split; [reflexivity|]. cbn [User.email User.password User.isActive User.id].
  split; [reflexivity|]. split; [reflexivity|]. split; [reflexivity|].
  split; [apply infinite_is_fresh|].
  split; [apply toJSON_password|].
  split; [apply toJSON_no_password_field|].
  split.
  - rewrite toJSON_other by discriminate. apply get_email.
  - rewrite toJSON_other by discriminate. apply get_isActive.
Qed.

Lemma register_new_email_succeeds_witness :
  ("carol@example.com" ∉ map User.email sample_store)
  ∧ ∃ u : User.t,
      @AuthService.register test_crypto default_config
        (UserData.mk "carol@example.com" "secret3" (Some "Carol") None) "salt" 5000 sample_store
      = (inr {| user := User.toJSON u;
                token := @AuthService.generateToken test_crypto default_config u 5000 |},
         [alice; bob_disabled; u])
      ∧ User.isActive u = true
      ∧ User.toJSON u !! "password" = None.
Proof.
  assert (Hnew : "carol@example.com" ∉ map User.email sample_store) by by_running.
  split; [exact Hnew|].
  destruct (@register_new_email_succeeds test_crypto default_config sample_store
              (UserData.mk "carol@example.com" "secret3" (Some "Carol") None) "salt" 5000 Hnew)
    as (u & Hr & _ & _ & Hactive & _ & Hpw & _).
  exists u. split; [exact Hr|]. split; [exact Hactive|exact Hpw].
Defined.

(** C7. Login frame condition: for every registered active user and correct
    password, [login] succeeds with the projection of the updated user and
    a token issued for it; the stored row of that user has [lastLogin] set
    to the current time; its id, email, password hash, first name, last
    name and [isActive] flag are what they were; every other row of the
    store is unchanged, and no row is added or removed. *)
Theorem login_success_frame `{Crypto} `{Config}
    (s : User.Table) (u : User.t) (password : string) (clock : Z) :
  unique_emails s → unique_ids s → u ∈ s →
  User.isActive u = true → User.comparePassword u password = true →
  ∃ (u' : User.t) (s' : User.Table),
    AuthService.login (User.email u) password clock s
    = (inr {| user := User.toJSON u'; token := AuthService.generateToken u' clock |}, s')
    ∧ User.lastLogin u' = Some clock
    ∧ User.toJSON u' !! "lastLogin" = Some (JDate clock)
    ∧ (User.id u' = User.id u ∧ User.email u' = User.email u
       ∧ User.password u' = User.password u ∧ User.firstName u' = User.firstName u
       ∧ User.lastName u' = User.lastName u ∧ User.isActive u' = User.isActive u)
    ∧ s' = map (λ r, if bool_decide (r = u) then u' else r) s
    ∧ User.findByPk (User.id u) s' = (inr (Some u'), s')
    ∧ (∀ r, r ∈ s → r ≠ u → r ∈ s')
    ∧ length s' = length s.
Proof.
  intros Hemails Hids Hin Hactive Hpw.
  exists (User.set_lastLogin clock clock u).
  exists (map (λ r, if String.eqb (User.id r) (User.id u)
                    then User.set_lastLogin clock clock r else r) s).
  assert (Hrows :
    map (λ r, if String.eqb (User.id r) (User.id u)
              then User.set_lastLogin clock clock r else r) s
    = map (λ r, if bool_decide (r = u) then User.set_lastLogin clock clock u else r) s).
  { apply map_ext_in. intros r Hr. apply list_elem_of_In in Hr.
    destruct (String.eqb_spec (User.id r) (User.id u)) as [Hid|Hid].
    - rewrite (unique_ids_inj s r u Hids Hr Hin Hid).
      rewrite bool_decide_eq_true_2 by reflexivity. reflexivity.
    - rewrite bool_decide_eq_false_2 by congruence. reflexivity. }
  split.
  { rewrite login_unfold, (find_email_present s u Hemails Hin), Hactive, Hpw. reflexivity. }
  split; [reflexivity|].
  split; [rewrite toJSON_other by discriminate; apply get_lastLogin|].
  split; [repeat split|].
  split; [exact Hrows|].
  split.
  { change (User.id u) with (User.id (User.set_lastLogin clock clock u)) at 1.
    apply findByPk_present.
    - unfold unique_ids. rewrite update_rows_ids. exact Hids.
    - rewrite Hrows. apply list_elem_of_In, in_map_iff. exists u.
      rewrite bool_decide_eq_true_2 by reflexivity.
      split; [reflexivity|]. apply list_elem_of_In. exact Hin. }
  split.
  { intros r Hr Hne. rewrite Hrows. apply list_elem_of_In, in_map_iff. exists r.
    rewrite bool_decide_eq_false_2 by exact Hne.
    split; [reflexivity|]. apply list_elem_of_In. exact Hr. }
  apply length_map.
Qed.

Lemma login_success_frame_witness :
  @User.comparePassword test_crypto alice "secret1" = true
  ∧ ∃ (u' : User.t) (s' : User.Table),
      @AuthService.login test_crypto default_config "alice@example.com" "secret1" 5000 sample_store
      = (inr {| user := User.toJSON u';
                token := @AuthService.generateToken test_crypto default_config u' 5000 |}, s')
      ∧ User.lastLogin u' = Some 5000
      ∧ s' = [u'; bob_disabled].
Proof.
  assert (Hemails : unique_emails sample_store) by by_running.
  assert (Hids : unique_ids sample_store) by by_running.
  assert (Hin : alice ∈ sample_store) by by_running.
  assert (Hpw : @User.comparePassword test_crypto alice "secret1" = true)
    by (vm_compute; reflexivity).
  split; [exact Hpw|].
  destruct (@login_success_frame test_crypto default_config sample_store alice "secret1" 5000
              Hemails Hids Hin eq_refl Hpw)
    as (u' & s' & Hl & Hlast & _ & _ & Hs' & _).
  exists u', s'. split; [exact Hl|]. split; [exact Hlast|].
  rewrite Hs'. reflexivity.
Defined.

(** C8. [getUserById]: for every id that matches no stored user it fails
    with [UserNotFoundError]; for every id of a stored user it returns the
    projection of a stored row with that id (of the row itself when ids
    are unique), which agrees with the stored record on every field but
    the password hash, and has no password field; the store is unchanged
    in every case. *)
Theorem getUserById_spec (s : User.Table) :
  (∀ userId, userId ∉ map User.id s →
     AuthService.getUserById userId s = (inl UserNotFoundError, s))
  ∧ (∀ userId, userId ∈ map User.id s →
     ∃ r, r ∈ s ∧ User.id r = userId
          ∧ AuthService.getUserById userId s = (inr (User.toJSON r), s))
  ∧ (∀ u, unique_ids s → u ∈ s →
     AuthService.getUserById (User.id u) s = (inr (User.toJSON u), s))
  ∧ (∀ u : User.t,
     User.toJSON u !! "password" = None
     ∧ (∀ k, k ≠ "password" → User.toJSON u !! k = User.get u !! k)
     ∧ User.toJSON u = delete "password" (User.get u))
  ∧ (∀ userId, snd (AuthService.getUserById userId s) = s).
Proof.
  split; [|split; [|split; [|split]]].
  - intros userId Hno. rewrite getUserById_unfold, (find_id_absent s userId Hno). reflexivity.
  - intros userId Hin. rewrite getUserById_unfold.
    destruct (find (λ r, String.eqb (User.id r) userId) s) as [r|] eqn:Hf.
    + apply find_some in Hf as [Hr Hid]. apply String.eqb_eq in Hid.
      exists r. split; [apply list_elem_of_In; exact Hr|]. split; [exact Hid|reflexivity].
    + exfalso. apply list_elem_of_fmap in Hin as (r & -> & Hr).
      apply list_elem_of_In in Hr.
      pose proof (find_none _ _ Hf _ Hr) as Hn. simpl in Hn.
      rewrite String.eqb_refl in Hn. discriminate.
  - intros u Hids Hin. rewrite getUserById_unfold, (find_id_present s u Hids Hin). reflexivity.
  - intros u. split; [apply toJSON_password|]. split; [|reflexivity].
    intros k Hk. apply toJSON_other. exact Hk.
  - intros userId. rewrite getUserById_unfold.
    destruct (find (λ r, String.eqb (User.id r) userId) s); reflexivity.
Qed.

Lemma getUserById_spec_witness :
  AuthService.getUserById "7" sample_store
  = (inl UserNotFoundError, sample_store)
  ∧ AuthService.getUserById "1" sample_store
    = (inr (User.toJSON bob_disabled), sample_store).
Proof.
  pose proof (getUserById_spec sample_store)
    as (Hunknown & _ & Hknown & _).
  split.
  - apply Hunknown. by_running.
  - apply (Hknown bob_disabled); by_running.
Defined.

(** ** Runs of the service *)

Section RunFacts.
Context `{Crypto} `{Config}.

(** What one call does to the table: it keeps the identifiers and emails
    of all rows in place, or it is a [register] that appends one row with
    an email and an identifier the table did not have. *)
Lemma step_rows (c : Call) (clock : Z) (s : User.Table) :
  (map User.email (step c clock s) = map User.email s
   ∧ map User.id (step c clock s) = map User.id s)
  ∨ (is_register c = true
     ∧ ∃ u, step c clock s = (s ++ [u])%list
            ∧ (User.email u ∉ map User.email s)
            ∧ (User.id u ∉ map User.id s)).
Proof.
  destruct c as [userData salt|email password|token|userId]; simpl.
  - rewrite register_unfold.
    destruct (find _ s) as [r|] eqn:Hf; [left; split; reflexivity|].
    apply find_email_None in Hf.
    unfold User.create. rewrite (existsb_email_absent s _ Hf).
    right. split; [reflexivity|]. eexists. split; [reflexivity|].
    split; [exact Hf|apply infinite_is_fresh].
  - left. rewrite login_unfold.
    destruct (find _ s) as [u|]; [|split; reflexivity].
    destruct (negb (User.isActive u)); [split; reflexivity|].
    destruct (negb (User.comparePassword u password)); [split; reflexivity|].
    simpl. split; [apply update_rows_emails|apply update_rows_ids].
  - left. split; reflexivity.
  - left. rewrite getUserById_unfold.
    destruct (find _ s); split; reflexivity.
Qed.

Lemma step_unique_emails (c : Call) (clock : Z) (s : User.Table) :
  unique_emails s → unique_emails (step c clock s).
Proof.
  unfold unique_emails. intros Hnd.
  destruct (step_rows c clock s) as [[He _]|(_ & u & -> & Hu & _)].
  - rewrite He. exact Hnd.
  - rewrite map_app. apply NoDup_app. split; [exact Hnd|]. split.
    + intros e He Hin. simpl in Hin. apply list_elem_of_singleton in Hin. congruence.
    + apply NoDup_singleton.
Qed.

Lemma step_unique_ids (c : Call) (clock : Z) (s : User.Table) :
  unique_ids s → unique_ids (step c clock s).
Proof.
  unfold unique_ids. intros Hnd.
  destruct (step_rows c clock s) as [[_ Hi]|(_ & u & -> & _ & Hu)].
  - rewrite Hi. exact Hnd.
  - rewrite map_app. apply NoDup_app. split; [exact Hnd|]. split.
    + intros e He Hin. simpl in Hin. apply list_elem_of_singleton in Hin. congruence.
    + apply NoDup_singleton.
Qed.

Lemma step_keeps_rows (c : Call) (clock : Z) (s : User.Table) :
  map User.email s `prefix_of` map User.email (step c clock s)
  ∧ map User.id s `prefix_of` map User.id (step c clock s).
Proof.
  destruct (step_rows c clock s) as [[He Hi]|(_ & u & -> & _ & _)].
  - rewrite He, Hi. split; reflexivity.
  - rewrite !map_app. split; apply prefix_app_r; reflexivity.
Qed.

Lemma step_creates_only_by_register (c : Call) (clock : Z) (s : User.Table) :
  is_register c = false →
  map User.email (step c clock s) = map User.email s
  ∧ map User.id (step c clock s) = map User.id s.
Proof.
  intros Hc. destruct (step_rows c clock s) as [Hsame|(Hr & _)]; [exact Hsame|congruence].
Qed.

End RunFacts.

(** C9. Store invariant: from a store with at most one row per email, every
    sequence of calls to [register], [login], [verifyToken] and
    [getUserById] leaves a store with at most one row per email (and, when
    identifiers were unique, unique identifiers); the identifiers and
    emails of the rows that were there stay where they were, so no row is
    deleted; and a sequence without [register] creates no row. *)
Theorem store_invariant_preserved `{Crypto} `{Config}
    (calls : list (Call * Z)) (s : User.Table) :
  unique_emails s →
  unique_emails (run calls s)
  ∧ (unique_ids s → unique_ids (run calls s))
  ∧ map User.email s `prefix_of` map User.email (run calls s)
  ∧ map User.id s `prefix_of` map User.id (run calls s)
  ∧ (forallb (λ c, negb (is_register c.1)) calls = true →
     map User.email (run calls s) = map User.email s
     ∧ map User.id (run calls s) = map User.id s
     ∧ length (run calls s) = length s).
Proof.
  revert s. induction calls as [|[c clock] calls IH]; intros s Hnd; simpl.
  - split; [exact Hnd|]. split; [tauto|]. split; [reflexivity|]. split; [reflexivity|].
    intros _. split; [reflexivity|]. split; reflexivity.
  - destruct (IH (step c clock s) (step_unique_emails c clock s Hnd))
      as (IHe & IHi & IHpe & IHpi & IHn).
    destruct (step_keeps_rows c clock s) as [Hpe Hpi].
    split; [exact IHe|].
    split; [intros Hids; apply IHi, step_unique_ids, Hids|].
    split; [etransitivity; [exact Hpe|exact IHpe]|].
    split; [etransitivity; [exact Hpi|exact IHpi]|].
    intros Hall. apply andb_prop in Hall as [Hc Hrest].
    apply negb_true_iff in Hc.
    destruct (step_creates_only_by_register c clock s Hc) as [He Hi].
    destruct (IHn Hrest) as (He' & Hi' & Hl').
    split; [congruence|]. split; [congruence|].
    rewrite Hl'. rewrite <- (length_map User.id (step c clock s)), Hi. apply length_map.
Qed.

Lemma store_invariant_preserved_witness :
  unique_emails sample_store
  ∧ unique_emails
      (@run test_crypto default_config
         [(Register (UserData.mk "carol@example.com" "secret3" None None) "salt", 5000);
          (Register (UserData.mk "alice@example.com" "secret9" None None) "salt", 6000);
          (Login "alice@example.com" "secret1", 7000);
          (VerifyToken (jwt.Raw "invalid.token.here"), 8000);
          (GetUserById "1", 9000)]
         sample_store).
Proof.
  assert (Hnd : unique_emails sample_store) by by_running.
  split; [exact Hnd|].
  exact (proj1 (@store_invariant_preserved test_crypto default_config _ sample_store Hnd)).
Defined.

(** ** The scenario of the specification, run on the model

    Register alice; register the same email again; log in with a wrong
    password; log in with the right one. *)
Example scenario_alice :
  let ud := UserData.mk "alice@example.com" "secret1" (Some "Alice") None in
  let (r1, s1) := @AuthService.register test_crypto default_config ud "salt" 1000 [] in
  let (r2, s2) := @AuthService.register test_crypto default_config ud "pepper" 2000 s1 in
  let (r3, s3) := @AuthService.login test_crypto default_config "alice@example.com" "nope" 3000 s2 in
  let (r4, s4) := @AuthService.login test_crypto default_config "alice@example.com" "secret1" 5000 s3 in
  r1 = inr {| user := User.toJSON alice;
              token := @AuthService.generateToken test_crypto default_config alice 1000 |}
  ∧ s1 = [alice]
  ∧ r2 = inl DuplicateAccountError ∧ s2 = [alice]
  ∧ r3 = inl InvalidCredentialsError ∧ s3 = [alice]
  ∧ s4 = [User.set_lastLogin 5000 5000 alice]
  ∧ (∃ res, r4 = inr res
            ∧ user res !! "lastLogin" = Some (JDate 5000)
            ∧ @AuthService.verifyToken test_crypto default_config (token res) 6000
              = inr (@issued_claims default_config "0" "alice@example.com" 5000)).
Proof.
  vm_compute. repeat (split; [reflexivity|]).
  eexists. split; [reflexivity|]. split; reflexivity.
Qed.

(** * Further properties of the service *)

Section ServiceCompositions.
Context `{Crypto} `{Config}.

(** The row update of [login] on a table whose last row is the only one
    with the identifier. *)
Lemma update_rows_last (s : User.Table) (u : User.t) (value clock : Z) :
  User.id u ∉ map User.id s →
  map (λ r, if String.eqb (User.id r) (User.id u)
            then User.set_lastLogin value clock r else r) (s ++ [u])
  = (s ++ [User.set_lastLogin value clock u])%list.
Proof.
  intros Hfresh. rewrite map_app. simpl. rewrite String.eqb_refl. f_equal.
  induction s as [|r s IH]; simpl; [reflexivity|].
  destruct (String.eqb_spec (User.id r) (User.id u)) as [Heq|Hne].
  - exfalso. apply Hfresh. simpl. rewrite Heq. left.
  - f_equal. apply IH. intros Hin. apply Hfresh. simpl. right. exact Hin.
Qed.

Lemma find_email_last (s : User.Table) (u : User.t) :
  User.email u ∉ map User.email s →
  find (λ r, String.eqb (User.email r) (User.email u)) (s ++ [u]) = Some u.
Proof.
  intros Hnew. induction s as [|r s IH]; simpl.
  - rewrite String.eqb_refl. reflexivity.
  - destruct (String.eqb_spec (User.email r) (User.email u)) as [Heq|Hne].
    + exfalso. apply Hnew. simpl. rewrite Heq. left.
    + apply IH. intros Hin. apply Hnew. simpl. right. exact Hin.
Qed.

Lemma find_id_last (s : User.Table) (u : User.t) :
  User.id u ∉ map User.id s →
  find (λ r, String.eqb (User.id r) (User.id u)) (s ++ [u]) = Some u.
Proof.
  intros Hnew. induction s as [|r s IH]; simpl.
  - rewrite String.eqb_refl. reflexivity.
  - destruct (String.eqb_spec (User.id r) (User.id u)) as [Heq|Hne].
    + exfalso. apply Hnew. simpl. rewrite Heq. left.
    + apply IH. intros Hin. apply Hnew. simpl. right. exact Hin.
Qed.

(** [register] with an email the table does not have: the row it appends. *)
Lemma register_new_email_succeeds_aux
    (s : User.Table) (userData : UserData.t) (salt : string) (clock : Z) :
  UserData.email userData ∉ map User.email s →
  ∃ u : User.t,
    AuthService.register userData salt clock s
    = (inr {| user := User.toJSON u; token := AuthService.generateToken u clock |},
       (s ++ [u])%list)
    ∧ User.email u = UserData.email userData
    ∧ User.password u = bcrypt_hash salt (UserData.password userData)
    ∧ User.isActive u = true
    ∧ (User.id u ∉ map User.id s).
Proof.
  intros Hnew.
  rewrite register_unfold, (find_email_absent s _ Hnew).
  unfold User.create. rewrite (existsb_email_absent s _ Hnew).
  eexists. split; [reflexivity|]. cbn [User.email User.password User.isActive User.id].
  split; [reflexivity|]. split; [reflexivity|]. split; [reflexivity|].
  apply infinite_is_fresh.
Qed.

End ServiceCompositions.

(** X1. Register, then log in: after a registration with an email the
    store did not have, a [login] with that email succeeds exactly when
    [bcrypt.compare] accepts the supplied password against the hash stored
    at registration; it then stamps [lastLogin] on the new row only, and
    otherwise fails with [InvalidCredentialsError] and writes nothing. *)
Theorem register_then_login `{Crypto} `{Config}
    (s : User.Table) (userData : UserData.t) (salt password : string) (clock1 clock2 : Z) :
  UserData.email userData ∉ map User.email s →
  ∃ (u : User.t) (result : AuthResult),
    AuthService.register userData salt clock1 s = (inr result, (s ++ [u])%list)
    ∧ AuthService.login (UserData.email userData) password clock2 (s ++ [u])%list
      = if bcrypt_compare password (bcrypt_hash salt (UserData.password userData))
        then
          let u' := User.set_lastLogin clock2 clock2 u in
          (inr {| user := User.toJSON u'; token := AuthService.generateToken u' clock2 |},
           (s ++ [u'])%list)
        else (inl InvalidCredentialsError, (s ++ [u])%list).
Proof.
  intros Hnew.
  destruct (register_new_email_succeeds_aux s userData salt clock1 Hnew)
    as (u & Hr & Hemail & Hpw & Hactive & Hid).
  exists u. eexists. split; [exact Hr|].
  rewrite login_unfold, <- Hemail.
  rewrite find_email_last by (rewrite Hemail; exact Hnew).
  rewrite Hactive. cbn [negb]. unfold User.comparePassword. rewrite Hpw.
  destruct (bcrypt_compare password (bcrypt_hash salt (UserData.password userData)));
    cbn [negb]; [|reflexivity].
  cbv zeta. rewrite update_rows_last by exact Hid. reflexivity.
Qed.

Lemma register_then_login_witness :
  ("carol@example.com" ∉ map User.email sample_store)
  ∧ ∃ (u : User.t) (result : AuthResult),
      @AuthService.register test_crypto default_config
        (UserData.mk "carol@example.com" "secret3" None None) "salt" 5000 sample_store
      = (inr result, [alice; bob_disabled; u])
      ∧ @AuthService.login test_crypto default_config "carol@example.com" "secret3" 6000
          [alice; bob_disabled; u]
        = (inr {| user := User.toJSON (User.set_lastLogin 6000 6000 u);
                  token := @AuthService.generateToken test_crypto default_config
                             (User.set_lastLogin 6000 6000 u) 6000 |},
           [alice; bob_disabled; User.set_lastLogin 6000 6000 u]).
Proof.
  assert (Hnew : "carol@example.com" ∉ map User.email sample_store) by by_running.
  split; [exact Hnew|].
  destruct (@register_then_login test_crypto default_config sample_store
              (UserData.mk "carol@example.com" "secret3" None None) "salt" "secret3"
              5000 6000 Hnew) as (u & result & Hr & Hl).
  exists u, result. split; [exact Hr|]. exact Hl.
Defined.

(** X2. Register, then fetch: the projection [register] returns carries the
    new identifier in its [id] field, and [getUserById] with that
    identifier returns the same projection from the store [register]
    left. *)
Theorem register_then_getUserById `{Crypto} `{Config}
    (s : User.Table) (userData : UserData.t) (salt : string) (clock : Z) :
  UserData.email userData ∉ map User.email s →
  ∃ (result : AuthResult) (s' : User.Table) (pk : string),
    AuthService.register userData salt clock s = (inr result, s')
    ∧ user result !! "id" = Some (JStr pk)
    ∧ (pk ∉ map User.id s)
    ∧ AuthService.getUserById pk s' = (inr (user result), s').
Proof.
  intros Hnew.
  destruct (register_new_email_succeeds_aux s userData salt clock Hnew)
    as (u & Hr & _ & _ & _ & Hid).
  eexists. exists (s ++ [u])%list, (User.id u). split; [exact Hr|]. cbn [user].
  split; [rewrite toJSON_other by discriminate; apply get_id|].
  split; [exact Hid|].
  rewrite getUserById_unfold, find_id_last by exact Hid. reflexivity.
Qed.

Lemma register_then_getUserById_witness :
  ("carol@example.com" ∉ map User.email sample_store)
  ∧ ∃ (result : AuthResult) (s' : User.Table) (pk : string),
      @AuthService.register test_crypto default_config
        (UserData.mk "carol@example.com" "secret3" None None) "salt" 5000 sample_store
      = (inr result, s')
      ∧ AuthService.getUserById pk s' = (inr (user result), s').
Proof.
  assert (Hnew : "carol@example.com" ∉ map User.email sample_store) by by_running.
  split; [exact Hnew|].
  destruct (@register_then_getUserById test_crypto default_config sample_store
              (UserData.mk "carol@example.com" "secret3" None None) "salt" 5000 Hnew)
    as (result & s' & pk & Hr & _ & _ & Hg).
  exists result, s', pk. split; [exact Hr|exact Hg].
Defined.

(** X3. Log in, verify, fetch: the token of a successful [login], verified
    before it expires, decodes to the user's identifier and email, and
    [getUserById] with the decoded identifier returns the projection that
    [login] returned, [lastLogin] stamp included. *)
Theorem login_token_resolves_to_user `{Crypto} `{Config}
    (s : User.Table) (u : User.t) (password : string) (clock verified : Z) :
  unique_emails s → unique_ids s → u ∈ s →
  User.isActive u = true → User.comparePassword u password = true →
  verified / 1000 < clock / 1000 + JWT_EXPIRES_IN / 1000 →
  ∃ (result : AuthResult) (s' : User.Table) (decoded : JObject),
    AuthService.login (User.email u) password clock s = (inr result, s')
    ∧ AuthService.verifyToken (token result) verified = inr decoded
    ∧ decoded !! "id" = Some (JStr (User.id u))
    ∧ decoded !! "email" = Some (JStr (User.email u))
    ∧ getUserById_value (decoded !! "id") s' = (inr (user result), s')
    ∧ user result !! "lastLogin" = Some (JDate clock).
Proof.
  intros Hemails Hids Hin Hactive Hpw Hlive.
  set (u' := User.set_lastLogin clock clock u).
  set (s' := map (λ r, if String.eqb (User.id r) (User.id u)
                       then User.set_lastLogin clock clock r else r) s).
  exists {| user := User.toJSON u'; token := AuthService.generateToken u' clock |}, s',
         (issued_claims (User.id u) (User.email u) clock).
  assert (Hdec_id : issued_claims (User.id u) (User.email u) clock !! "id"
                    = Some (JStr (User.id u))).
  { unfold issued_claims, id_email_claims.
    repeat (rewrite lookup_insert_ne by discriminate). apply lookup_insert_eq. }
  split.
  { rewrite login_unfold, (find_email_present s u Hemails Hin), Hactive, Hpw. reflexivity. }
  cbn [token user]. split.
  { unfold AuthService.verifyToken. rewrite verify_generateToken.
    destruct (Z.geb_spec (verified / 1000) (clock / 1000 + JWT_EXPIRES_IN / 1000)); [lia|].
    reflexivity. }
  split; [exact Hdec_id|]. split.
  { unfold issued_claims, id_email_claims.
    repeat (rewrite lookup_insert_ne by discriminate). apply lookup_insert_eq. }
  split.
  { rewrite Hdec_id. unfold getUserById_value. rewrite getUserById_unfold.
    change (User.id u) with (User.id u') at 1.
    rewrite find_id_present; [reflexivity| |].
    - unfold unique_ids, s'. rewrite update_rows_ids. exact Hids.
    - unfold s'. apply list_elem_of_In, in_map_iff. exists u.
      rewrite String.eqb_refl. split; [reflexivity|]. apply list_elem_of_In. exact Hin. }
  rewrite toJSON_other by discriminate. apply get_lastLogin.
Qed.

Lemma login_token_resolves_to_user_witness :
  ∃ (result : AuthResult) (s' : User.Table) (decoded : JObject),
    @AuthService.login test_crypto default_config "alice@example.com" "secret1" 5000 sample_store
    = (inr result, s')
    ∧ @AuthService.verifyToken test_crypto default_config (token result) 9000 = inr decoded
    ∧ getUserById_value (decoded !! "id") s' = (inr (user result), s').
Proof.
  assert (Hemails : unique_emails sample_store) by by_running.
  assert (Hids : unique_ids sample_store) by by_running.
  assert (Hin : alice ∈ sample_store) by by_running.
  assert (Hpw : @User.comparePassword test_crypto alice "secret1" = true)
    by (vm_compute; reflexivity).
  assert (Hlive : 9000 / 1000 < 5000 / 1000 + @JWT_EXPIRES_IN default_config / 1000)
    by (vm_compute; reflexivity).
  destruct (@login_token_resolves_to_user test_crypto default_config sample_store alice
              "secret1" 5000 9000 Hemails Hids Hin eq_refl Hpw Hlive)
    as (result & s' & decoded & Hl & Hv & _ & _ & Hg & _).
  exists result, s', decoded. split; [exact Hl|]. split; [exact Hv|exact Hg].
Defined.



(** * Properties of the request boundary *)

Section BoundaryFacts.
Context `{Crypto} `{Config}.

Lemma set_db_same {B} (w : Koa.World B) : Koa.set_db (Koa.db w) w = w.
Proof. destruct w. reflexivity. Qed.

Lemma findByPk_value_eq (v : option JValue) (s : User.Table) :
  findByPk_value v s = (inr (row_of_pk v s), s).
Proof.
  unfold findByPk_value, row_of_pk.
  destruct v as [[| | |pk|]|]; reflexivity.
Qed.

(** [authenticate] as one case analysis. *)
Lemma authenticate_unfold {B} (next : Koa.Handler B unit) (w : Koa.World B) :
  middleware.authenticate next w =
  match middleware.bearer_token (Koa.authorization w) with
  | None => (inl (Koa.createError 401 "No token provided"), w)
  | Some token =>
      match jwt.verify token JWT_SECRET (Koa.now w) with
      | inl e => (inl (authenticate_catch (Koa.plain e)), w)
      | inr decoded =>
          match row_of_pk (decoded !! "id") (Koa.db w) with
          | None => (inl (Koa.createError 401 "User not found"), w)
          | Some u =>
              if User.isActive u
              then guarded next (Koa.set_state_user (Some (User.toJSON u)) w)
              else (inl (Koa.createError 401 "Account is disabled"), w)
          end
      end
  end.
Proof.
  unfold middleware.authenticate, Koa.try_catch, mbind, Koa.Handler_bind, Koa.world.
  destruct (middleware.bearer_token (Koa.authorization w)) as [token|]; [|reflexivity].
  cbn [mret Koa.Handler_ret].
  destruct (jwt.verify token JWT_SECRET (Koa.now w)) as [e|decoded].
  { cbn [Koa.call Koa.raise]. unfold authenticate_catch, Koa.ctx_throw, Koa.raise.
    cbn [Koa.error Koa.plain].
    destruct (String.eqb (name e) "JsonWebTokenError"); [reflexivity|].
    destruct (String.eqb (name e) "TokenExpiredError"); reflexivity. }
  cbn [Koa.call mret Koa.Handler_ret]. unfold Koa.await.
  rewrite findByPk_value_eq, set_db_same.
  destruct (row_of_pk (decoded !! "id") (Koa.db w)) as [u|]; [|reflexivity].
  destruct (User.isActive u); [|reflexivity].
  cbn [negb]. unfold Koa.modify, guarded.
  destruct (next (Koa.set_state_user (Some (User.toJSON u)) w)) as [[t|[]] w'];
    [|reflexivity].
  unfold authenticate_catch, Koa.ctx_throw, Koa.raise.
  destruct (String.eqb (name (Koa.error t)) "JsonWebTokenError"); [reflexivity|].
  destruct (String.eqb (name (Koa.error t)) "TokenExpiredError"); reflexivity.
Qed.

End BoundaryFacts.

Section AuthenticateFacts.
Context `{Crypto} `{Config}.

Lemma substring_all (s : string) : String.substring 0 (String.length s) s = s.
Proof. induction s as [|c s IH]; simpl; [reflexivity|]. rewrite IH. reflexivity. Qed.


Lemma row_of_pk_elem (v : option JValue) (s : User.Table) (u : User.t) :
  row_of_pk v s = Some u → u ∈ s ∧ v = Some (JStr (User.id u)).
Proof.
  unfold row_of_pk. destruct v as [[| | |pk|]|]; try discriminate.
  intros Hf. apply find_some in Hf as [Hin Hid]. apply String.eqb_eq in Hid.
  split; [apply list_elem_of_In; exact Hin|congruence].
Qed.

Lemma bearer_token_round_trip_aux (t : jwt.Token) :
  middleware.bearer_token (Some (Koa.bearer t)) = Some t.
Proof.
  destruct t as [s|header payload signature]; [|reflexivity].
  unfold Koa.bearer, middleware.bearer_token.
  change ("Bearer " +:+ s) with
    (String "B" (String "e" (String "a" (String "r" (String "e" (String "r" (String " " s))))))).
  cbn [String.eqb negb andb].
  assert (Hp : String.prefix "Bearer "
             (String "B" (String "e" (String "a" (String "r" (String "e" (String "r"
                (String " " s))))))) = true) by (destruct s; reflexivity).
  rewrite Hp. cbn [String.length Nat.sub String.substring].
  rewrite Nat.sub_0_r, substring_all. reflexivity.
Qed.

End AuthenticateFacts.

(** X5. Bearer header round trip: from the header a client builds as
    ['Bearer ' + token], the middleware reads back exactly that token,
    whatever the token (the empty string included); a header that does not
    start with ['Bearer '], and a missing header, yield no token. *)
Theorem bearer_token_round_trip (t : jwt.Token) :
  middleware.bearer_token (Some (Koa.bearer t)) = Some t
  ∧ (∀ s, String.prefix "Bearer " s = false → middleware.bearer_token (Some (Koa.Text s)) = None)
  ∧ middleware.bearer_token None = None.
Proof.
  split; [apply bearer_token_round_trip_aux|]. split; [|reflexivity].
  intros s Hs. unfold middleware.bearer_token. rewrite Hs, andb_false_r. reflexivity.
Qed.


(** X7. The decision table of [authenticate] for a token of
    [generateToken]: once the token's lifetime has elapsed the answer is
    401 ['Token expired']; before that, 401 ['User not found'] when no row
    has the token's identifier, 401 ['Account is disabled'] when the row
    is inactive, and otherwise the downstream handler runs with
    [ctx.state.user] set to the projection of the row as it is in the
    store now. *)
Theorem authenticate_issued_token `{Crypto} `{Config} {B}
    (next : Koa.Handler B unit) (w : Koa.World B) (holder : User.t) (issued : Z) :
  Koa.authorization w = Some (Koa.bearer (AuthService.generateToken holder issued)) →
  middleware.authenticate next w =
  if Koa.now w / 1000 >=? issued / 1000 + JWT_EXPIRES_IN / 1000
  then (inl (Koa.createError 401 "Token expired"), w)
  else
    match find (λ r, String.eqb (User.id r) (User.id holder)) (Koa.db w) with
    | None => (inl (Koa.createError 401 "User not found"), w)
    | Some u =>
        if User.isActive u
        then guarded next (Koa.set_state_user (Some (User.toJSON u)) w)
        else (inl (Koa.createError 401 "Account is disabled"), w)
    end.
Proof.
  intros Hauth.
  rewrite authenticate_unfold, Hauth, bearer_token_round_trip_aux, verify_generateToken.
  destruct (Koa.now w / 1000 >=? issued / 1000 + JWT_EXPIRES_IN / 1000); [reflexivity|].
  assert (Hid : issued_claims (User.id holder) (User.email holder) issued !! "id"
                = Some (JStr (User.id holder))).
  { unfold issued_claims, id_email_claims.
    repeat (rewrite lookup_insert_ne by discriminate). apply lookup_insert_eq. }
  rewrite Hid. reflexivity.
Qed.

Lemma authenticate_issued_token_witness :
  ∃ w' : Koa.World unit,
    @middleware.authenticate test_crypto default_config unit (mret tt)
      (request tt (Some (Koa.bearer (@AuthService.generateToken test_crypto default_config
                                       alice 1500)))
               sample_store 9000)
    = (inr tt, w')
    ∧ Koa.state_user w' = Some (User.toJSON alice).
Proof.
  eexists. split.
  - rewrite (@authenticate_issued_token test_crypto default_config unit (mret tt)
               (request tt (Some (Koa.bearer (@AuthService.generateToken test_crypto
                                                default_config alice 1500)))
                        sample_store 9000)
               alice 1500 eq_refl).
    vm_compute. reflexivity.
  - reflexivity.
Defined.

Section HandlerFacts.
Context `{Crypto} `{Config}.

(** The status and message [errorHandler] answers with. *)
Lemma errorHandler_unfold {B} (next : Koa.Handler B unit) (w : Koa.World B) :
  middleware.errorHandler next w =
  match next w with
  | (inr x, w') => (inr x, w')
  | (inl err, w') =>
      (inr tt,
       Koa.set_body
         (Some (Koa.BodyError
                  (if String.eqb (message (Koa.error err)) "" then "Internal server error"
                   else message (Koa.error err))
                  (Koa.development w')))
         (Koa.set_status
            (match Koa.status err with
             | Some code => if Z.eqb code 0 then 500 else code
             | None => 500
             end) w'))
  end.
Proof.
  unfold middleware.errorHandler, Koa.try_catch.
  destruct (next w) as [[err|x] w']; reflexivity.
Qed.

Lemma validate_unfold {B} (schema : B → middleware.ValidationResult B)
    (next : Koa.Handler B unit) (w : Koa.World B) :
  middleware.validate schema next w =
  match middleware.joi_error (schema (Koa.request_body w)) with
  | Some details =>
      (inr tt,
       Koa.set_body
         (Some (Koa.BodyValidation
                  (map (λ detail,
                          {| Koa.field := String.concat "." (middleware.path detail);
                             Koa.detail_message := middleware.joi_message detail |})
                       details)))
         (Koa.set_status 400 w))
  | None =>
      match next (Koa.set_request_body (middleware.value (schema (Koa.request_body w))) w) with
      | (inr x, w') => (inr x, w')
      | (inl _, w') => (inl (Koa.createError 500 "Validation error occurred"), w')
      end
  end.
Proof.
  unfold middleware.validate, Koa.try_catch, mbind, Koa.Handler_bind, Koa.world.
  destruct (middleware.joi_error (schema (Koa.request_body w))) as [details|].
  - reflexivity.
  - unfold Koa.modify.
    destruct (next _) as [[t|[]] w']; reflexivity.
Qed.

Lemma optionalAuth_unfold {B} (next : Koa.Handler B unit) (w : Koa.World B) :
  middleware.optionalAuth next w =
  match middleware.bearer_token (Koa.authorization w) with
  | None => next w
  | Some token =>
      match jwt.verify token JWT_SECRET (Koa.now w) with
      | inl _ => next w
      | inr decoded =>
          match row_of_pk (decoded !! "id") (Koa.db w) with
          | Some u =>
              if User.isActive u
              then next (Koa.set_state_user (Some (User.toJSON u)) w)
              else next w
          | None => next w
          end
      end
  end.
Proof.
  unfold middleware.optionalAuth, Koa.try_catch, mbind, Koa.Handler_bind, Koa.world.
  destruct (middleware.bearer_token (Koa.authorization w)) as [token|]; [|reflexivity].
  destruct (jwt.verify token JWT_SECRET (Koa.now w)) as [e|decoded]; [reflexivity|].
  cbn [Koa.call mret Koa.Handler_ret]. unfold Koa.await.
  rewrite findByPk_value_eq, set_db_same.
  destruct (row_of_pk (decoded !! "id") (Koa.db w)) as [u|]; [|reflexivity].
  destruct (User.isActive u); reflexivity.
Qed.

End HandlerFacts.



(** X9. A token that is not active yet is answered with a 500, not a 401:
    for a correctly signed token whose [nbf] lies in the future,
    [jwt.verify] throws [NotBeforeError], which the catch of
    [authenticate] throws again as it is; it has no status, so under
    [errorHandler] the response is 500 with the message
    ['jwt not active'], and the downstream handler does not run. *)
Theorem not_yet_valid_token_is_500 `{Crypto} `{Config} {B}
    (next : Koa.Handler B unit) (w : Koa.World B)
    (header : Header) (payload : JObject) (nbf : Z) :
  alg header ∈ jwt.hs_algorithms →
  payload !! "nbf" = Some (JNum nbf) →
  Koa.now w / 1000 < nbf →
  Koa.authorization w
  = Some (Koa.Bearer header payload (jwa_sign (alg header) JWT_SECRET (header, payload))) →
  middleware.authenticate next w = (inl (Koa.plain jwt.NotBeforeError), w)
  ∧ middleware.errorHandler (middleware.authenticate next) w
    = (inr tt,
       Koa.set_body (Some (Koa.BodyError "jwt not active" (Koa.development w)))
         (Koa.set_status 500 w)).
Proof.
  intros Halg Hnbf Hfuture Hauth.
  assert (Ha : middleware.authenticate next w = (inl (Koa.plain jwt.NotBeforeError), w)).
  { rewrite authenticate_unfold, Hauth. cbn [middleware.bearer_token jwt.verify].
    rewrite (bool_decide_eq_true_2 _ Halg), String.eqb_refl. cbn [negb].
    unfold jwt.check_nbf. rewrite Hnbf.
    destruct (Z.gtb_spec nbf (Koa.now w / 1000)); [reflexivity|lia]. }
  split; [exact Ha|]. rewrite errorHandler_unfold, Ha. reflexivity.
Qed.

Lemma not_yet_valid_token_is_500_witness :
  let header := {| alg := "HS256"; typ := "JWT" |} in
  let payload : JObject := <["nbf" := JNum 100]> (id_email_claims "0" "alice@example.com") in
  let w := request tt
             (Some (Koa.Bearer header payload
                      (@jwa_sign test_crypto "HS256" (@JWT_SECRET default_config)
                         (header, payload))))
             sample_store 9000 in
  @middleware.errorHandler unit (@middleware.authenticate test_crypto default_config unit (mret tt)) w
  = (inr tt, Koa.set_body (Some (Koa.BodyError "jwt not active" false)) (Koa.set_status 500 w)).
Proof.
  intros header payload w.
  assert (Halg : alg header ∈ jwt.hs_algorithms) by by_running.
  assert (Hnbf : payload !! "nbf" = Some (JNum 100)) by (vm_compute; reflexivity).
  assert (Hfuture : Koa.now w / 1000 < 100) by (vm_compute; reflexivity).
  exact (proj2 (@not_yet_valid_token_is_500 test_crypto default_config unit (mret tt) w
                  header payload 100 Halg Hnbf Hfuture eq_refl)).
Defined.

(** X10. [optionalAuth] never turns a request away and never writes to the
    store: whatever the header, it runs the downstream handler once, on
    the world it was given or on that world with [ctx.state.user] set to
    the projection of an active stored row; anything [jwt.verify] throws
    is swallowed. *)
Theorem optionalAuth_always_continues `{Crypto} `{Config} {B}
    (next : Koa.Handler B unit) (w : Koa.World B) :
  middleware.optionalAuth next w = next w
  ∨ ∃ u : User.t,
      u ∈ Koa.db w ∧ User.isActive u = true
      ∧ middleware.optionalAuth next w
        = next (Koa.set_state_user (Some (User.toJSON u)) w).
Proof.
  rewrite optionalAuth_unfold.
  destruct (middleware.bearer_token (Koa.authorization w)) as [token|]; [|left; reflexivity].
  destruct (jwt.verify token JWT_SECRET (Koa.now w)) as [e|decoded]; [left; reflexivity|].
  destruct (row_of_pk (decoded !! "id") (Koa.db w)) as [u|] eqn:Hrow; [|left; reflexivity].
  destruct (User.isActive u) eqn:Hactive; [|left; reflexivity].
  right. exists u. split; [exact (proj1 (row_of_pk_elem _ _ _ Hrow))|].
  split; [exact Hactive|reflexivity].
Qed.


(** X12. [validate] stops an invalid body: when the schema reports errors
    the response is 400 with one [{field, message}] entry per reported
    detail, in order, the field being the detail's path joined by dots;
    the downstream handler does not run, and the request body, the
    store and [ctx.state.user] are untouched. *)
Theorem validate_rejects_invalid_body {B}
    (schema : B → middleware.ValidationResult B) (next : Koa.Handler B unit)
    (w : Koa.World B) (details : list middleware.JoiDetail) :
  middleware.joi_error (schema (Koa.request_body w)) = Some details →
  ∃ w' : Koa.World B,
    middleware.validate schema next w = (inr tt, w')
    ∧ Koa.ctx_status w' = 400
    ∧ (∃ errors, Koa.ctx_body w' = Some (Koa.BodyValidation errors)
                 ∧ length errors = length details
                 ∧ ∀ i d, details !! i = Some d →
                     errors !! i = Some {| Koa.field := String.concat "." (middleware.path d);
                                           Koa.detail_message := middleware.joi_message d |})
    ∧ Koa.db w' = Koa.db w
    ∧ Koa.request_body w' = Koa.request_body w
    ∧ Koa.state_user w' = Koa.state_user w.
Proof.
  intros Herr. rewrite validate_unfold, Herr.
  eexists. split; [reflexivity|]. cbn.
  split; [reflexivity|]. split; [|repeat split].
  eexists. split; [reflexivity|]. split; [apply length_map|].
  intros i d Hd.
  change (map ?f details) with (f <$> details).
  rewrite list_lookup_fmap, Hd. reflexivity.
Qed.

Lemma validate_rejects_invalid_body_witness :
  ∃ w' : Koa.World LoginBody.t,
    @middleware.validate LoginBody.t sample_login_schema
      (@AuthController.login test_crypto default_config)
      (request (LoginBody.mk "" "") None sample_store 9000)
    = (inr tt, w')
    ∧ Koa.ctx_status w' = 400
    ∧ Koa.db w' = sample_store.
Proof.
  destruct (@validate_rejects_invalid_body LoginBody.t sample_login_schema
              (@AuthController.login test_crypto default_config)
              (request (LoginBody.mk "" "") None sample_store 9000)
              [middleware.mkJoiDetail ["email"] "Email is required";
               middleware.mkJoiDetail ["password"] "Password is required"]
              eq_refl)
    as (w' & Hv & Hstatus & _ & Hdb & _).
  exists w'. split; [exact Hv|]. split; [exact Hstatus|exact Hdb].
Defined.

(** X13. [validate] hides what the downstream handler throws: [next] runs
    inside its [try], so for a body the schema accepts, any error thrown
    downstream, whatever its status and message, leaves [validate] as a
    500 ['Validation error occurred']; under [errorHandler] that is the
    response. *)
Theorem validate_masks_downstream_errors {B}
    (schema : B → middleware.ValidationResult B) (next : Koa.Handler B unit)
    (w w1 : Koa.World B) (t : Koa.Thrown) :
  middleware.joi_error (schema (Koa.request_body w)) = None →
  next (Koa.set_request_body (middleware.value (schema (Koa.request_body w))) w) = (inl t, w1) →
  middleware.validate schema next w
  = (inl (Koa.createError 500 "Validation error occurred"), w1)
  ∧ middleware.errorHandler (middleware.validate schema next) w
    = (inr tt,
       Koa.set_body (Some (Koa.BodyError "Validation error occurred" (Koa.development w1)))
         (Koa.set_status 500 w1)).
Proof.
  intros Hok Hnext.
  assert (Hv : middleware.validate schema next w
               = (inl (Koa.createError 500 "Validation error occurred"), w1)).
  { rewrite validate_unfold, Hok, Hnext. reflexivity. }
  split; [exact Hv|].
  unfold middleware.errorHandler, Koa.try_catch. rewrite Hv. reflexivity.
Qed.

Lemma validate_masks_downstream_errors_witness :
  let w := request (LoginBody.mk "carol@example.com" "secret3") None sample_store 9000 in
  @AuthController.login test_crypto default_config w
  = (inl (Koa.createError 401 "Invalid credentials"), w)
  ∧ @middleware.errorHandler LoginBody.t
      (@middleware.validate LoginBody.t sample_login_schema
         (@AuthController.login test_crypto default_config)) w
    = (inr tt,
       Koa.set_body (Some (Koa.BodyError "Validation error occurred" false))
         (Koa.set_status 500 w)).
Proof.
  intros w.
  assert (Hl : @AuthController.login test_crypto default_config w
               = (inl (Koa.createError 401 "Invalid credentials"), w))
    by (vm_compute; reflexivity).
  split; [exact Hl|].
  exact (proj2 (@validate_masks_downstream_errors LoginBody.t sample_login_schema
                  (@AuthController.login test_crypto default_config) w w
                  (Koa.createError 401 "Invalid credentials") eq_refl Hl)).
Defined.

Section ControllerFacts.
Context `{Crypto} `{Config}.

Lemma controller_register_unfold (w : Koa.World UserData.t) :
  AuthController.register w =
  match AuthService.register (Koa.request_body w) (Koa.salt w) (Koa.now w) (Koa.db w) with
  | (inr result, s') =>
      (inr tt,
       Koa.set_body (Some (Koa.BodySuccess (Koa.DataAuth result)))
         (Koa.set_status 201 (Koa.set_db s' w)))
  | (inl e, s') => (inl (Koa.createError 400 (message e)), Koa.set_db s' w)
  end.
Proof.
  unfold AuthController.register, Koa.try_catch, mbind, Koa.Handler_bind, Koa.world, Koa.await.
  destruct (AuthService.register _ _ _ _) as [[e|result] s']; reflexivity.
Qed.

Lemma controller_login_unfold (w : Koa.World LoginBody.t) :
  AuthController.login w =
  match AuthService.login (LoginBody.email (Koa.request_body w))
          (LoginBody.password (Koa.request_body w)) (Koa.now w) (Koa.db w) with
  | (inr result, s') =>
      (inr tt,
       Koa.set_body (Some (Koa.BodySuccess (Koa.DataAuth result)))
         (Koa.set_status 200 (Koa.set_db s' w)))
  | (inl e, s') => (inl (Koa.createError 401 (message e)), Koa.set_db s' w)
  end.
Proof.
  unfold AuthController.login, Koa.try_catch, mbind, Koa.Handler_bind, Koa.world, Koa.await.
  destruct (AuthService.login _ _ _ _) as [[e|result] s']; reflexivity.
Qed.

Lemma controller_getProfile_unfold {B} (w : Koa.World B) :
  AuthController.getProfile w =
  match Koa.state_user w with
  | None =>
      (inl (Koa.createError 404 (message AuthController.TypeError_user_undefined)), w)
  | Some p =>
      match row_of_pk (p !! "id") (Koa.db w) with
      | Some u =>
          (inr tt,
           Koa.set_body (Some (Koa.BodySuccess (Koa.DataUser (User.toJSON u))))
             (Koa.set_status 200 w))
      | None => (inl (Koa.createError 404 "User not found"), w)
      end
  end.
Proof.
  unfold AuthController.getProfile, Koa.try_catch, mbind, Koa.Handler_bind, Koa.world.
  destruct (Koa.state_user w) as [p|]; [|reflexivity].
  cbn [mret Koa.Handler_ret]. unfold Koa.await, getUserById_value, row_of_pk.
  destruct (p !! "id") as [[| | |pk|]|]; try (cbn; rewrite set_db_same; reflexivity).
  rewrite getUserById_unfold.
  destruct (find (λ r, String.eqb (User.id r) pk) (Koa.db w)) as [u|];
    cbn; rewrite set_db_same; reflexivity.
Qed.

(** [authenticate] on a token of [generateToken] that has not expired. *)
Lemma authenticate_live_token {B} (next : Koa.Handler B unit) (w : Koa.World B)
    (holder : User.t) (issued : Z) :
  Koa.authorization w = Some (Koa.bearer (AuthService.generateToken holder issued)) →
  Koa.now w / 1000 < issued / 1000 + JWT_EXPIRES_IN / 1000 →
  middleware.authenticate next w =
  match find (λ r, String.eqb (User.id r) (User.id holder)) (Koa.db w) with
  | None => (inl (Koa.createError 401 "User not found"), w)
  | Some u =>
      if User.isActive u
      then guarded next (Koa.set_state_user (Some (User.toJSON u)) w)
      else (inl (Koa.createError 401 "Account is disabled"), w)
  end.
Proof.
  intros Hauth Hlive.
  rewrite authenticate_unfold, Hauth, bearer_token_round_trip_aux, verify_generateToken.
  destruct (Z.geb_spec (Koa.now w / 1000) (issued / 1000 + JWT_EXPIRES_IN / 1000)); [lia|].
  assert (Hid : issued_claims (User.id holder) (User.email holder) issued !! "id"
                = Some (JStr (User.id holder))).
  { unfold issued_claims, id_email_claims.
    repeat (rewrite lookup_insert_ne by discriminate). apply lookup_insert_eq. }
  rewrite Hid. reflexivity.
Qed.

End ControllerFacts.

(** X14. The responses of [POST /api/auth/register] (the controller under
    [errorHandler]): when a row already has the email, 400 with the
    message ['User with this email already exists'] and the store
    unchanged; when none has, 201 with the projection of the new row,
    which has no [password] field, and its token, the store having that
    one row more. *)
Theorem register_http_responses `{Crypto} `{Config} (w : Koa.World UserData.t) :
  (∀ u, u ∈ Koa.db w → User.email u = UserData.email (Koa.request_body w) →
     middleware.errorHandler AuthController.register w
     = (inr tt,
        Koa.set_body
          (Some (Koa.BodyError "User with this email already exists" (Koa.development w)))
          (Koa.set_status 400 w)))
  ∧ (UserData.email (Koa.request_body w) ∉ map User.email (Koa.db w) →
     ∃ u : User.t,
       middleware.errorHandler AuthController.register w
       = (inr tt,
          Koa.set_body
            (Some (Koa.BodySuccess
                     (Koa.DataAuth {| user := User.toJSON u;
                                      token := AuthService.generateToken u (Koa.now w) |})))
            (Koa.set_status 201 (Koa.set_db (Koa.db w ++ [u])%list w)))
       ∧ User.email u = UserData.email (Koa.request_body w)
       ∧ User.toJSON u !! "password" = None).
Proof.
  split.
  - intros u Hin Hemail.
    rewrite errorHandler_unfold, controller_register_unfold, register_unfold.
    destruct (findOne_some_email (Koa.db w) u Hin) as [r Hr].
    unfold User.findOne in Hr. rewrite Hemail in Hr.
    assert (Hf : find (λ r, String.eqb (User.email r) (UserData.email (Koa.request_body w)))
                   (Koa.db w) = Some r) by congruence.
    rewrite Hf, set_db_same. reflexivity.
  - intros Hnew.
    destruct (register_new_email_succeeds_aux (Koa.db w) (Koa.request_body w) (Koa.salt w)
                (Koa.now w) Hnew) as (u & Hr & Hemail & _).
    exists u. split; [|split; [exact Hemail|apply toJSON_password]].
    rewrite errorHandler_unfold, controller_register_unfold, Hr. reflexivity.
Qed.

Lemma register_http_responses_witness :
  @middleware.errorHandler UserData.t (@AuthController.register test_crypto default_config)
    (request (UserData.mk "alice@example.com" "another" None None) None sample_store 9000)
  = (inr tt,
     Koa.set_body (Some (Koa.BodyError "User with this email already exists" false))
       (Koa.set_status 400
          (request (UserData.mk "alice@example.com" "another" None None) None
                   sample_store 9000))).
Proof.
  assert (Hin : alice ∈ sample_store) by by_running.
  exact (proj1 (@register_http_responses test_crypto default_config
                  (request (UserData.mk "alice@example.com" "another" None None) None
                           sample_store 9000))
               alice Hin eq_refl).
Defined.

(** X15. The status codes of the three controllers under [errorHandler]:
    [register] answers 201 or 400, [login] 200 or 401, [getProfile] 200 or
    404, and nothing else; every failing answer carries an error body and
    leaves the store as it was. *)
Theorem controller_status_codes `{Crypto} `{Config} :
  (∀ w : Koa.World UserData.t,
     ∃ w', middleware.errorHandler AuthController.register w = (inr tt, w')
           ∧ ((Koa.ctx_status w' = 201
               ∧ ∃ result, Koa.ctx_body w' = Some (Koa.BodySuccess (Koa.DataAuth result)))
              ∨ (Koa.ctx_status w' = 400 ∧ Koa.db w' = Koa.db w
                 ∧ ∃ msg, Koa.ctx_body w' = Some (Koa.BodyError msg (Koa.development w)))))
  ∧ (∀ w : Koa.World LoginBody.t,
     ∃ w', middleware.errorHandler AuthController.login w = (inr tt, w')
           ∧ ((Koa.ctx_status w' = 200
               ∧ ∃ result, Koa.ctx_body w' = Some (Koa.BodySuccess (Koa.DataAuth result)))
              ∨ (Koa.ctx_status w' = 401 ∧ Koa.db w' = Koa.db w
                 ∧ ∃ msg, Koa.ctx_body w' = Some (Koa.BodyError msg (Koa.development w)))))
  ∧ (∀ (B : Type) (w : Koa.World B),
     ∃ w', middleware.errorHandler AuthController.getProfile w = (inr tt, w')
           ∧ ((Koa.ctx_status w' = 200
               ∧ ∃ p, Koa.ctx_body w' = Some (Koa.BodySuccess (Koa.DataUser p)))
              ∨ (Koa.ctx_status w' = 404 ∧ Koa.db w' = Koa.db w
                 ∧ ∃ msg, Koa.ctx_body w' = Some (Koa.BodyError msg (Koa.development w))))).
Proof.
  split; [|split].
  - intros w. rewrite errorHandler_unfold, controller_register_unfold.
    destruct (AuthService.register _ _ _ _) as [[e|result] s'] eqn:Hr.
    + rewrite register_unfold in Hr.
      destruct (find _ (Koa.db w)) as [r|] eqn:Hf.
      * injection Hr as <- <-. eexists. split; [reflexivity|]. right. cbn.
        split; [reflexivity|]. split; [reflexivity|]. eexists. reflexivity.
      * apply find_email_None in Hf. unfold User.create in Hr.
        rewrite (existsb_email_absent _ _ Hf) in Hr. discriminate.
    + eexists. split; [reflexivity|]. left. cbn. split; [reflexivity|].
      eexists. reflexivity.
  - intros w. rewrite errorHandler_unfold, controller_login_unfold, login_unfold.
    destruct (find _ (Koa.db w)) as [u|].
    + destruct (negb (User.isActive u)).
      * eexists. split; [reflexivity|]. right. cbn.
        split; [reflexivity|]. split; [reflexivity|]. eexists. reflexivity.
      * destruct (negb (User.comparePassword u _)).
        -- eexists. split; [reflexivity|]. right. cbn.
           split; [reflexivity|]. split; [reflexivity|]. eexists. reflexivity.
        -- eexists. split; [reflexivity|]. left. cbn. split; [reflexivity|].
           eexists. reflexivity.
    + eexists. split; [reflexivity|]. right. cbn.
      split; [reflexivity|]. split; [reflexivity|]. eexists. reflexivity.
  - intros B w. rewrite errorHandler_unfold, controller_getProfile_unfold.
    destruct (Koa.state_user w) as [p|].
    + destruct (row_of_pk (p !! "id") (Koa.db w)) as [u|].
      * eexists. split; [reflexivity|]. left. cbn. split; [reflexivity|].
        eexists. reflexivity.
      * eexists. split; [reflexivity|]. right. cbn.
        split; [reflexivity|]. split; [reflexivity|]. eexists. reflexivity.
    + eexists. split; [reflexivity|]. right. cbn.
      split; [reflexivity|]. split; [reflexivity|]. eexists. reflexivity.
Qed.

(** X16. Register, then fetch the profile with the token: after a
    registration with a new email, a request that carries the returned
    token as its bearer header, made before the token expires, passes
    [authenticate] and [getProfile] answers 200 with the very projection
    [register] returned; [ctx.state.user] holds that projection. *)
Theorem register_then_profile `{Crypto} `{Config} {B}
    (s : User.Table) (userData : UserData.t) (salt : string) (clock : Z) (w : Koa.World B) :
  UserData.email userData ∉ map User.email s →
  ∃ (result : AuthResult) (s' : User.Table),
    AuthService.register userData salt clock s = (inr result, s')
    ∧ (Koa.db w = s' →
       Koa.authorization w = Some (Koa.bearer (token result)) →
       Koa.now w / 1000 < clock / 1000 + JWT_EXPIRES_IN / 1000 →
       middleware.errorHandler (middleware.authenticate AuthController.getProfile) w
       = (inr tt,
          Koa.set_body (Some (Koa.BodySuccess (Koa.DataUser (user result))))
            (Koa.set_status 200 (Koa.set_state_user (Some (user result)) w)))).
Proof.
  intros Hnew.
  destruct (register_new_email_succeeds_aux s userData salt clock Hnew)
    as (u & Hr & _ & _ & Hactive & Hid).
  eexists. exists (s ++ [u])%list. split; [exact Hr|]. cbn [token user].
  intros Hdb Hauth Hlive.
  rewrite errorHandler_unfold, (authenticate_live_token _ w u clock Hauth Hlive).
  rewrite Hdb, (find_id_last s u Hid), Hactive.
  unfold guarded. rewrite controller_getProfile_unfold. cbn [Koa.state_user Koa.set_state_user].
  rewrite toJSON_other by discriminate. rewrite get_id.
  cbn [row_of_pk Koa.db Koa.set_state_user].
  rewrite Hdb, (find_id_last s u Hid). reflexivity.
Qed.

Lemma register_then_profile_witness :
  ∃ (result : AuthResult) (s' : User.Table),
    @AuthService.register test_crypto default_config
      (UserData.mk "carol@example.com" "secret3" None None) "salt" 5000 sample_store
    = (inr result, s')
    ∧ @middleware.errorHandler unit
        (@middleware.authenticate test_crypto default_config unit
           (@AuthController.getProfile unit))
        (request tt (Some (Koa.bearer (token result))) s' 9000)
      = (inr tt,
         Koa.set_body (Some (Koa.BodySuccess (Koa.DataUser (user result))))
           (Koa.set_status 200
              (Koa.set_state_user (Some (user result))
                 (request tt (Some (Koa.bearer (token result))) s' 9000)))).
Proof.
  assert (Hnew : "carol@example.com" ∉ map User.email sample_store) by by_running.
  destruct (@register_then_profile test_crypto default_config unit sample_store
              (UserData.mk "carol@example.com" "secret3" None None) "salt" 5000
              (request tt
                 (Some (Koa.bearer
                          (token (match fst (@AuthService.register test_crypto default_config
                                               (UserData.mk "carol@example.com" "secret3" None None)
                                               "salt" 5000 sample_store) with
                                  | inr r => r
                                  | inl _ => {| user := ∅; token := jwt.Raw "" |}
                                  end))))
                 (snd (@AuthService.register test_crypto default_config
                         (UserData.mk "carol@example.com" "secret3" None None)
                         "salt" 5000 sample_store))
                 9000)
              Hnew) as (result & s' & Hr & Hp).
  exists result, s'. split; [exact Hr|].
  rewrite Hr in Hp. cbn [fst snd] in Hp.
  apply Hp; [reflexivity|reflexivity|vm_compute; reflexivity].
Defined.

(** X17. [getProfile] answers from the store, not from [ctx.state.user]:
    of the object left in [ctx.state.user] only the [id] is used, and the
    body is the projection of the row the store has for it now; when no
    row has that id the answer is 404 ['User not found'], and when
    [ctx.state.user] was never set the answer is 404 as well. The store
    is never written. *)
Theorem getProfile_reads_store {B} (w : Koa.World B) :
  (∀ p u, Koa.state_user w = Some p →
          p !! "id" = Some (JStr (User.id u)) →
          unique_ids (Koa.db w) → u ∈ Koa.db w →
          middleware.errorHandler AuthController.getProfile w
          = (inr tt,
             Koa.set_body (Some (Koa.BodySuccess (Koa.DataUser (User.toJSON u))))
               (Koa.set_status 200 w)))
  ∧ (∀ p, Koa.state_user w = Some p →
          (∀ u, u ∈ Koa.db w → p !! "id" ≠ Some (JStr (User.id u))) →
          middleware.errorHandler AuthController.getProfile w
          = (inr tt,
             Koa.set_body (Some (Koa.BodyError "User not found" (Koa.development w)))
               (Koa.set_status 404 w)))
  ∧ (Koa.state_user w = None →
     ∃ msg, middleware.errorHandler AuthController.getProfile w
            = (inr tt,
               Koa.set_body (Some (Koa.BodyError msg (Koa.development w)))
                 (Koa.set_status 404 w)))
  ∧ Koa.db (snd (middleware.errorHandler AuthController.getProfile w)) = Koa.db w.
Proof.
  split; [|split; [|split]].
  - intros p u Hp Hid Hids Hin.
    rewrite errorHandler_unfold, controller_getProfile_unfold, Hp, Hid.
    cbn [row_of_pk]. rewrite (find_id_present _ u Hids Hin). reflexivity.
  - intros p Hp Hnone.
    rewrite errorHandler_unfold, controller_getProfile_unfold, Hp.
    destruct (row_of_pk (p !! "id") (Koa.db w)) as [u|] eqn:Hrow; [|reflexivity].
    exfalso. destruct (row_of_pk_elem _ _ _ Hrow) as [Hin Hv].
    exact (Hnone u Hin Hv).
  - intros Hp. eexists.
    rewrite errorHandler_unfold, controller_getProfile_unfold, Hp. reflexivity.
  - rewrite errorHandler_unfold, controller_getProfile_unfold.
    destruct (Koa.state_user w) as [p|]; [|reflexivity].
    destruct (row_of_pk (p !! "id") (Koa.db w)); reflexivity.
Qed.

Lemma getProfile_reads_store_witness :
  let stale : JObject := <["id" := JStr "0"]> (<["email" := JStr "old@example.com"]> ∅) in
  let w := Koa.set_state_user (Some stale) (request tt None sample_store 9000) in
  @middleware.errorHandler unit (@AuthController.getProfile unit) w
  = (inr tt,
     Koa.set_body (Some (Koa.BodySuccess (Koa.DataUser (User.toJSON alice))))
       (Koa.set_status 200 w)).
Proof.
  intros stale w.
  assert (Hids : unique_ids (Koa.db w)) by by_running.
  assert (Hin : alice ∈ Koa.db w) by by_running.
  exact (proj1 (@getProfile_reads_store unit w) stale alice eq_refl eq_refl Hids Hin).
Defined.

(** X18. The two credential failures are the same response: under
    [errorHandler], a login with an email no row has and a login with the
    email of an active user and a password that does not match answer
    with the same status, 401, and the same body, ['Invalid credentials'],
    and neither writes to the store. *)
Theorem login_http_failures_indistinguishable `{Crypto} `{Config}
    (w : Koa.World LoginBody.t) (absent password1 : string) (u : User.t) (password2 : string) :
  absent ∉ map User.email (Koa.db w) →
  unique_emails (Koa.db w) → u ∈ Koa.db w → User.isActive u = true →
  User.comparePassword u password2 = false →
  ∃ w1 w2 : Koa.World LoginBody.t,
    middleware.errorHandler AuthController.login
      (Koa.set_request_body (LoginBody.mk absent password1) w) = (inr tt, w1)
    ∧ middleware.errorHandler AuthController.login
        (Koa.set_request_body (LoginBody.mk (User.email u) password2) w) = (inr tt, w2)
    ∧ Koa.ctx_status w1 = 401 ∧ Koa.ctx_status w2 = 401
    ∧ Koa.ctx_body w1 = Some (Koa.BodyError "Invalid credentials" (Koa.development w))
    ∧ Koa.ctx_body w2 = Koa.ctx_body w1
    ∧ Koa.db w1 = Koa.db w ∧ Koa.db w2 = Koa.db w.
Proof.
  intros Habsent Hnd Hin Hactive Hpw.
  eexists. eexists. split; [|split].
  - rewrite errorHandler_unfold, controller_login_unfold, login_unfold.
    cbn [Koa.request_body Koa.set_request_body Koa.db LoginBody.email LoginBody.password].
    rewrite (find_email_absent _ absent Habsent). reflexivity.
  - rewrite errorHandler_unfold, controller_login_unfold, login_unfold.
    cbn [Koa.request_body Koa.set_request_body Koa.db LoginBody.email LoginBody.password].
    rewrite (find_email_present _ u Hnd Hin), Hactive, Hpw. reflexivity.
  - cbn. repeat split.
Qed.

Lemma login_http_failures_indistinguishable_witness :
  ∃ w1 w2 : Koa.World LoginBody.t,
    @middleware.errorHandler LoginBody.t (@AuthController.login test_crypto default_config)
      (request (LoginBody.mk "carol@example.com" "secret1") None sample_store 9000)
    = (inr tt, w1)
    ∧ @middleware.errorHandler LoginBody.t (@AuthController.login test_crypto default_config)
        (request (LoginBody.mk "alice@example.com" "wrong") None sample_store 9000)
      = (inr tt, w2)
    ∧ Koa.ctx_status w1 = 401
    ∧ Koa.ctx_body w2 = Koa.ctx_body w1.
Proof.
  assert (Habsent : "carol@example.com" ∉ map User.email sample_store) by by_running.
  assert (Hnd : unique_emails sample_store) by by_running.
  assert (Hin : alice ∈ sample_store) by by_running.
  assert (Hpw : @User.comparePassword test_crypto alice "wrong" = false)
    by (vm_compute; reflexivity).
  destruct (@login_http_failures_indistinguishable test_crypto default_config
              (request (LoginBody.mk "" "") None sample_store 9000)
              "carol@example.com" "secret1" alice "wrong" Habsent Hnd Hin eq_refl Hpw)
    as (w1 & w2 & H1 & H2 & Hs1 & _ & _ & Hb & _).
  exists w1, w2. split; [exact H1|]. split; [exact H2|]. split; [exact Hs1|exact Hb].
Defined.

Lemma bearer_token_round_trip_witness :
  middleware.bearer_token (Some (Koa.bearer (jwt.Raw "invalid.token.here")))
  = Some (jwt.Raw "invalid.token.here")
  ∧ middleware.bearer_token (Some (Koa.Text "bearer abc")) = None.
Proof.
  destruct (bearer_token_round_trip (jwt.Raw "invalid.token.here")) as (Hrt & Hno & _).
  split; [exact Hrt|]. apply Hno. reflexivity.
Defined.
